(** * Xray-core launcher ([main/run.go]): a shallow embedding

    The development follows the source file top to bottom:

    - [GoLib]: the few functions of the Go standard library the launcher
      relies on ([strings.ToLower], [regexp.MatchString] for the pattern
      syntax used here, [path.Join] / [filepath.Join] / [filepath.Abs]);
    - [Run]: the launcher itself, written in a small trace/exit monad
      (events performed, global [configFiles], [os.Exit], blocking);
    - the theorems about config resolution, directory scanning, the
      dump/test/run modes, exit codes, and the shutdown sequence. *)

From Stdlib Require Import List String Ascii ZArith Bool Lia.
Import ListNotations.
Local Open Scope string_scope.
Local Open Scope list_scope.

(* ================================================================== *)
(** ** Part of the Go standard library used by [run.go] *)
(* ================================================================== *)

Module GoLib.

(** *** Strings as byte sequences *)

Definition bytes (s : string) : list ascii := list_ascii_of_string s.

Definition newline : ascii := "010"%char.

(** [strings.ToLower], restricted to what is observable by a comparison
    with an all-ASCII lower-case word: ASCII upper-case letters are mapped
    to lower case, every other byte is kept. *)
Definition lower_byte (c : ascii) : ascii :=
  let n := nat_of_ascii c in
  if andb (Nat.leb 65 n) (Nat.leb n 90) then ascii_of_nat (n + 32) else c.

Fixpoint strings_ToLower (s : string) : string :=
  match s with
  | EmptyString => EmptyString
  | String c r => String (lower_byte c) (strings_ToLower r)
  end.

(** *** Regular expressions (the fragment of RE2 syntax the launcher uses) *)

Inductive regex : Type :=
| RVoid                      (* matches nothing; only produced by derivatives *)
| REps                       (* empty concatenation *)
| RLit (c : ascii)           (* a literal byte, possibly escaped *)
| RAny                       (* [.]: any character but a line feed *)
| RCat (r1 r2 : regex)
| RAlt (r1 r2 : regex)       (* [r1|r2] *)
| RStar (r : regex)          (* [r*] *)
| RPlus (r : regex).         (* [r+] *)

(** Denotation: the byte sequences a regex matches in full. *)
Inductive lang : regex -> list ascii -> Prop :=
| L_eps : lang REps []
| L_lit c : lang (RLit c) [c]
| L_any c : c <> newline -> lang RAny [c]
| L_cat r1 r2 s1 s2 : lang r1 s1 -> lang r2 s2 -> lang (RCat r1 r2) (s1 ++ s2)
| L_alt_l r1 r2 s : lang r1 s -> lang (RAlt r1 r2) s
| L_alt_r r1 r2 s : lang r2 s -> lang (RAlt r1 r2) s
| L_star_nil r : lang (RStar r) []
| L_star_cons r s1 s2 : lang r s1 -> lang (RStar r) s2 -> lang (RStar r) (s1 ++ s2)
| L_plus r s1 s2 : lang r s1 -> lang (RStar r) s2 -> lang (RPlus r) (s1 ++ s2).

(** The matcher: Brzozowski derivatives. *)
Fixpoint nullable (r : regex) : bool :=
  match r with
  | RVoid => false
  | REps => true
  | RLit _ => false
  | RAny => false
  | RCat r1 r2 => nullable r1 && nullable r2
  | RAlt r1 r2 => nullable r1 || nullable r2
  | RStar _ => true
  | RPlus r => nullable r
  end.

Fixpoint deriv (c : ascii) (r : regex) : regex :=
  match r with
  | RVoid => RVoid
  | REps => RVoid
  | RLit d => if Ascii.eqb c d then REps else RVoid
  | RAny => if Ascii.eqb c newline then RVoid else REps
  | RCat r1 r2 =>
      if nullable r1
      then RAlt (RCat (deriv c r1) r2) (deriv c r2)
      else RCat (deriv c r1) r2
  | RAlt r1 r2 => RAlt (deriv c r1) (deriv c r2)
  | RStar r1 => RCat (deriv c r1) (RStar r1)
  | RPlus r1 => RCat (deriv c r1) (RStar r1)
  end.

Fixpoint rmatch (r : regex) (s : list ascii) : bool :=
  match s with
  | [] => nullable r
  | c :: s' => rmatch (deriv c r) s'
  end.

(** *** Parsing a pattern

    Grammar: [alt ::= cat ('|' cat)*], [cat ::= rep*],
    [rep ::= atom ('+' | '*')*],
    [atom ::= '(' alt ')' | '.' | '\' punct | byte].
    Anything else (classes, counted repetition, inner anchors, [?]) is
    rejected, as a compile error would be. *)

Definition is_word_byte (c : ascii) : bool :=
  let n := nat_of_ascii c in
  (Nat.leb 48 n && Nat.leb n 57) || (Nat.leb 65 n && Nat.leb n 90)
  || (Nat.leb 97 n && Nat.leb n 122) || Nat.eqb n 95.

Definition is_meta (c : ascii) : bool :=
  existsb (Ascii.eqb c) (bytes "^$*+?[]{}()|\.").

Fixpoint postfix (r : regex) (s : list ascii) : regex * list ascii :=
  match s with
  | "+"%char :: s' => postfix (RPlus r) s'
  | "*"%char :: s' => postfix (RStar r) s'
  | _ => (r, s)
  end.

Definition parse_atom (alt : list ascii -> option (regex * list ascii))
    (s : list ascii) : option (regex * list ascii) :=
  match s with
  | [] => None
  | "("%char :: s' =>
      match alt s' with
      | Some (r, ")"%char :: s'') => Some (r, s'')
      | _ => None
      end
  | "."%char :: s' => Some (RAny, s')
  | "\"%char :: c :: s' => if is_word_byte c then None else Some (RLit c, s')
  | c :: s' => if is_meta c then None else Some (RLit c, s')
  end.

Fixpoint parse_alt (fuel : nat) (s : list ascii) : option (regex * list ascii) :=
  match fuel with
  | O => None
  | S f =>
      match parse_cat f s with
      | Some (r, "|"%char :: s') =>
          match parse_alt f s' with
          | Some (r', s'') => Some (RAlt r r', s'')
          | None => None
          end
      | other => other
      end
  end
with parse_cat (fuel : nat) (s : list ascii) : option (regex * list ascii) :=
  match fuel with
  | O => None
  | S f =>
      match s with
      | [] => Some (REps, [])
      | "|"%char :: _ => Some (REps, s)
      | ")"%char :: _ => Some (REps, s)
      | _ =>
          match parse_atom (parse_alt f) s with
          | Some (a, s') =>
              let (r, s'') := postfix a s' in
              match parse_cat f s'' with
              | Some (r', rest) => Some (RCat r r', rest)
              | None => None
              end
          | None => None
          end
      end
  end.

(** Text anchors are only understood at the two ends of the pattern; a
    missing anchor lets the match start (or stop) anywhere. *)
Definition any_byte : regex := RAlt RAny (RLit newline).

Fixpoint strip_end_anchor (s : list ascii) : list ascii * bool :=
  match s with
  | [] => ([], false)
  | ["$"%char] => ([], true)
  | c :: s' => let (b, a) := strip_end_anchor s' in (c :: b, a)
  end.

Definition regexp_Compile (pattern : string) : option regex :=
  let p := bytes pattern in
  let (p1, at_start) :=
    match p with "^"%char :: q => (q, true) | _ => (p, false) end in
  let (body, at_end) := strip_end_anchor p1 in
  match parse_alt (2 * List.length body + 2) body with
  | Some (r, []) =>
      let r1 := if at_start then r else RCat (RStar any_byte) r in
      Some (if at_end then r1 else RCat r1 (RStar any_byte))
  | _ => None
  end.

(** [regexp.MatchString(pattern, s)]: [None] is the compile error. *)
Definition regexp_MatchString (pattern s : string) : option bool :=
  match regexp_Compile pattern with
  | Some r => Some (rmatch r (bytes s))
  | None => None
  end.

(** *** Lexical path functions (Unix flavour) *)

(** The elements of a path between slashes. *)
Fixpoint split_slash (cur : string) (s : string) : list string :=
  match s with
  | EmptyString => [cur]
  | String c r =>
      if Ascii.eqb c "/"%char
      then cur :: split_slash EmptyString r
      else split_slash (cur ++ String c EmptyString) r
  end.

(** One element pushed on the stack of kept elements (most recent first):
    empty and [.] elements vanish, [..] removes the element before it, is
    dropped at the root, and is kept at the start of a relative path. *)
Definition clean_step (rooted : bool) (stack : list string) (e : string)
  : list string :=
  if String.eqb e "" then stack
  else if String.eqb e "." then stack
  else if String.eqb e ".." then
    match stack with
    | [] => if rooted then [] else [".."]
    | top :: below => if String.eqb top ".." then e :: stack else below
    end
  else e :: stack.

Definition is_rooted (p : string) : bool :=
  match p with String "/"%char _ => true | _ => false end.

(** [path.Clean] / [filepath.Clean]. *)
Definition path_Clean (p : string) : string :=
  let rooted := is_rooted p in
  let kept := rev (fold_left (clean_step rooted) (split_slash "" p) []) in
  let body := String.concat "/" kept in
  if rooted then "/" ++ body
  else if String.eqb body "" then "." else body.

(** [path.Join] / [filepath.Join]: leading empty elements are ignored, the
    rest is joined with slashes and cleaned; all empty gives the empty
    string. *)
Fixpoint path_Join (elem : list string) : string :=
  match elem with
  | [] => ""
  | e :: rest =>
      if String.eqb e "" then path_Join rest
      else path_Clean (String.concat "/" elem)
  end.

(** [filepath.Abs], given the result of [os.Getwd]. *)
Definition filepath_Abs (getwd : option string) (p : string) : option string :=
  if is_rooted p then Some (path_Clean p)
  else match getwd with
       | Some wd => Some (path_Join [wd; p])
       | None => None
       end.

End GoLib.

Import GoLib.

(* ================================================================== *)
(** ** The launcher *)
(* ================================================================== *)

Module Run.

(** Opaque handles of the proxy engine. *)
Definition Config := nat.
Definition Server := nat.

(** [cmdarg.Arg]: the list of config paths. *)
Definition Arg := list string.

(** Everything [executeRun] reads from outside: the parsed flags, the
    platform, the file system, the environment lookups of package
    [platform], and the engine ([core]). *)
Record Env : Type := {
  (* flags *)
  flag_config : Arg;                 (* -config / -c, repeatable *)
  configDir : string;                (* -confdir *)
  dump : bool;
  test : bool;
  format : string;
  sysProxyPort : string;
  sysProxyDevice : string;
  (* runtime.GOOS *)
  GOOS : string;
  (* os *)
  os_Stat : string -> option bool;   (* [Some isDir], [None] on error *)
  os_ReadDir : string -> option (list string);  (* entry names *)
  os_Getwd : option string;
  os_UserHomeDir : option string;
  (* platform *)
  platform_GetConfDirPath : string;
  platform_GetConfigurationPath : string;
  (* core *)
  core_GetMergedConfig : Arg -> option string;
  core_GetFormatByExtension : string -> string;
  core_LoadConfig : string -> Arg -> option Config;
  core_New : Config -> option Server;
  server_Start : Server -> bool      (* [true]: no error *)
}.

(** What reaches the launcher while the server runs. *)
Inductive input : Type :=
| Signal                   (* os.Interrupt or SIGTERM *)
| ClickQuit                (* tray menu item "Quit" *)
| ClickToggle.             (* tray menu item "Disable"/"Enable" *)

Inductive goroutine : Type := SignalListener | TrayLoop | Background.

(** Observable actions, in the order they are performed. *)
Inductive event : Type :=
| Exec (argv : list string)          (* exec.Command(argv...).Run() *)
| Log (msg : string)                 (* log.Println / fmt.Println / fmt.Print *)
| Call (fn : string)                 (* a call without a result of interest *)
| ReadDir (dir : string)
| GetMergedConfig (files : Arg)
| LoadConfig (fmt : string) (files : Arg)
| New (c : Config)
| Start (s : Server)
| Close (s : Server)
| Go (g : goroutine)
| Recv (i : input)                   (* a receive from osSignals or a ClickedCh *)
| CloseEnd                           (* close(end) *)
| RecvEnd                            (* <-end returned *)
| SetTitle (t : string)
| SetIcon (enabled_glyph : bool)     (* icon.Data, or the one-byte glyph *)
| AddMenuItem (title : string)
| ItemSetTitle (title : string).

Inductive outcome (A : Type) : Type :=
| Done (a : A) (files : Arg)   (* returned; the global [configFiles] *)
| Exited (code : Z)            (* os.Exit(code): deferred calls are skipped *)
| Blocked.                     (* waiting for ever on [<-end] *)
Arguments Done {A} a files.
Arguments Exited {A} code.
Arguments Blocked {A}.

(** Computations: the global [configFiles] goes in, a trace and an outcome
    come out. *)
Definition M (A : Type) : Type := Arg -> list event * outcome A.

Definition ret {A} (a : A) : M A := fun s => ([], Done a s).

Definition bind {A B} (m : M A) (f : A -> M B) : M B :=
  fun s =>
    match m s with
    | (t, Done a s') => let (t', o) := f a s' in (t ++ t', o)
    | (t, Exited c) => (t, Exited c)
    | (t, Blocked) => (t, Blocked)
    end.

Notation "x <- m ;; k" := (bind m (fun x => k))
  (at level 61, m at next level, right associativity).
Notation "m ;; k" := (bind m (fun _ => k))
  (at level 61, right associativity).

Definition emit (e : event) : M unit := fun s => ([e], Done tt s).
Definition get_configFiles : M Arg := fun s => ([], Done s s).
Definition set_configFiles (a : Arg) : M unit := fun _ => ([], Done tt a).
Definition os_Exit {A} (code : Z) : M A := fun _ => ([], Exited code).
Definition block {A} : M A := fun _ => ([], Blocked).

(** [log.Fatalln]: print, then [os.Exit(1)]. *)
Definition log_Fatalln {A} (msg : string) : M A := emit (Log msg) ;; os_Exit 1.

(** [defer d] followed by [body]: [d] runs when [body] returns, and only
    then. *)
Definition defer {A} (d : M unit) (body : M A) : M A :=
  a <- body ;; d ;; ret a.

Definition when (b : bool) (m : M unit) : M unit := if b then m else ret tt.

Section Launcher.

Variable env : Env.

Definition DefaultConfigFileLocation : string := "~/.xray/config.json".

(** Modelled from the spec: [cmdarg.Arg.Set] is declared in package
    [common/cmdarg], outside [run.go]; explicit files and scanned files
    "accumulate into one set", the scan "appends to them". *)
Definition configFiles_Set (value : string) : M unit :=
  fs <- get_configFiles ;; set_configFiles (fs ++ [value]).

Definition fileExists (file : string) : bool :=
  match os_Stat env file with
  | Some isDir => negb isDir
  | None => false
  end.

Definition dirExists (file : string) : bool :=
  if String.eqb file "" then false
  else match os_Stat env file with
       | Some isDir => isDir
       | None => false
       end.

Definition getRegepxByFormat : string :=
  let f := strings_ToLower (format env) in
  if String.eqb f "json" then "^.+\.(json|jsonc)$"
  else if String.eqb f "toml" then "^.+\.toml$"
  else if String.eqb f "yaml" || String.eqb f "yml" then "^.+\.(yaml|yml)$"
  else "^.+\.(json|jsonc|toml|yaml|yml)$".

(** The body of the [for] loop of [readConfDir]. *)
Definition readConfDir_entry (dirPath name : string) : M unit :=
  match regexp_MatchString getRegepxByFormat name with
  | None => log_Fatalln "regexp: compile error"
  | Some matched =>
      if matched then configFiles_Set (path_Join [dirPath; name])
      else ret tt
  end.

Fixpoint for_each {A} (body : A -> M unit) (l : list A) : M unit :=
  match l with
  | [] => ret tt
  | x :: rest => body x ;; for_each body rest
  end.

Definition readConfDir (dirPath : string) : M unit :=
  emit (ReadDir dirPath) ;;
  match os_ReadDir env dirPath with
  | None => log_Fatalln "os.ReadDir error"
  | Some confs => for_each (readConfDir_entry dirPath) confs
  end.

Definition getConfigFilePath (verbose : bool) : M Arg :=
  (if dirExists (configDir env) then
     when verbose (emit (Log "Using confdir from arg:")) ;;
     readConfDir (configDir env)
   else
     let envConfDir := platform_GetConfDirPath env in
     if dirExists envConfDir then
       when verbose (emit (Log "Using confdir from env:")) ;;
       readConfDir envConfDir
     else ret tt) ;;
  configFiles <- get_configFiles ;;
  if Nat.ltb 0 (List.length configFiles) then ret configFiles
  else
    let cwdFile :=
      match os_Getwd env with
      | Some workingDir =>
          let configFile := path_Join [workingDir; "config.json"] in
          if fileExists configFile then Some configFile else None
      | None => None
      end in
    match cwdFile with
    | Some configFile =>
        when verbose (emit (Log "Using default config: ")) ;;
        ret [configFile]
    | None =>
        let configFile := platform_GetConfigurationPath env in
        if fileExists configFile then
          when verbose (emit (Log "Using config from env: ")) ;;
          ret [configFile]
        else
          when verbose
            (emit (Log "using default directory for search config file")) ;;
          match os_UserHomeDir env with
          | None =>
              emit (Log "Error getting home directory:") ;;
              ret []
          | Some homeDir =>
              let relativePath :=
                match DefaultConfigFileLocation with
                | String "~"%char rest => path_Join [homeDir; rest]
                | _ => ""
                end in
              match filepath_Abs (os_Getwd env) relativePath with
              | None =>
                  emit (Log "Error getting absolute path:") ;;
                  ret []
              | Some absolutePath => ret [absolutePath]
              end
          end
    end.

Definition getConfigFormat : string :=
  let f := core_GetFormatByExtension env (format env) in
  if String.eqb f "" then "auto" else f.

Definition dumpConfig : M Z :=
  files <- getConfigFilePath false ;;
  emit (GetMergedConfig files) ;;
  match core_GetMergedConfig env files with
  | None =>
      emit (Log "merge error") ;;
      emit (Call "time.Sleep") ;;
      ret 23%Z
  | Some config =>
      emit (Log config) ;;
      ret 0%Z
  end.

(** [startXray]: [inr server], or [inl] the error message. *)
Definition startXray : M (string + Server) :=
  configFiles <- getConfigFilePath true ;;
  emit (LoadConfig getConfigFormat configFiles) ;;
  match core_LoadConfig env getConfigFormat configFiles with
  | None => ret (inl "failed to load config files")
  | Some c =>
      emit (New c) ;;
      match core_New env c with
      | None => ret (inl "failed to create server")
      | Some server => ret (inr server)
      end
  end.

Definition enableSysProxy (device port : string) : M unit :=
  emit (Exec ["networksetup"; "-setsocksfirewallproxy"; device; "127.0.0.1"; port]) ;;
  emit (Exec ["networksetup"; "-setsocksfirewallproxystate"; device; "on"]) ;;
  emit (Log "Enabled system proxy for device").

Definition disableSysProxy (device : string) : M unit :=
  emit (Exec ["networksetup"; "-setsocksfirewallproxystate"; device; "off"]) ;;
  emit (Log "Disabled system proxy for device").

(** [onReady], up to the launch of [background]. *)
Definition onReady : M unit :=
  emit (SetTitle "xray") ;;
  emit (SetIcon true) ;;
  emit (AddMenuItem "Disable") ;;
  emit (AddMenuItem "Quit") ;;
  emit (Go Background).

(** The second goroutine of [executeRun]; [systray.Run] calls [onReady]
    once the tray is up. *)
Definition trayLoop : M unit :=
  emit (Call "runtime.LockOSThread") ;;
  emit (Call "systray.Run") ;;
  onReady.

(** One pass through the [select] of [background], for the click that
    has arrived; the result is the new [sysProxyState]. *)
Definition background (sysProxyState : Z) (click : input) : M Z :=
  match click with
  | ClickQuit =>
      (* case <-quite.ClickedCh *)
      emit (Recv ClickQuit) ;;
      os_Exit 0
  | ClickToggle =>
      (* case <-swithSysProxyState.ClickedCh *)
      emit (Recv ClickToggle) ;;
      if Z.eqb sysProxyState 1 then
        disableSysProxy (sysProxyDevice env) ;;
        emit (SetIcon false) ;;
        emit (ItemSetTitle "Enable") ;;
        ret 0%Z
      else
        enableSysProxy (sysProxyDevice env) (sysProxyPort env) ;;
        emit (SetIcon true) ;;
        emit (ItemSetTitle "Disable") ;;
        ret 1%Z
  | Signal => ret sysProxyState      (* not delivered to this loop *)
  end.

(** The goroutines while the main flow waits on [<-end], fed with the
    inputs in their order of arrival: clicks go to the loop of
    [background], which starts with [sysProxyState] 1; the first signal
    goes to the signal goroutine, which closes [end].  The computation
    returns when [end] has been closed. *)
Fixpoint listeners (sysProxyState : Z) (ins : list input) : M unit :=
  match ins with
  | [] => block
  | Signal :: _ =>
      (* <-osSignals; close(end) *)
      emit (Recv Signal) ;;
      emit CloseEnd
  | click :: rest =>
      st <- background sysProxyState click ;;
      listeners st rest
  end.

(** [executeRun] after the platform block at its top. *)
Definition executeRun_body (ins : list input) : M unit :=
  (if dump env then
     emit (Call "clog.ReplaceWithSeverityLogger") ;;
     errCode <- dumpConfig ;;
     os_Exit errCode
   else ret tt) ;;
  emit (Call "printVersion") ;;
  r <- startXray ;;
  match r with
  | inl err =>
      emit (Log "Failed to start:") ;;
      (* Configuration error. Exit with a special value to prevent systemd
         from restarting. *)
      os_Exit 23
  | inr server =>
      (if test env then
         emit (Log "Configuration OK.") ;;
         os_Exit 0
       else ret tt) ;;
      emit (Start server) ;;
      (if server_Start env server then ret tt
       else emit (Log "Failed to start:") ;; os_Exit (-1)) ;;
      defer (emit (Close server))
        (emit (Call "runtime.GC") ;;
         emit (Call "debug.FreeOSMemory") ;;
         emit (Call "runtime.UnlockOSThread") ;;
         emit (Go SignalListener) ;;
         emit (Go TrayLoop) ;;
         trayLoop ;;
         listeners 1 ins ;;
         emit RecvEnd)
  end.

Definition executeRun_M (ins : list input) : M unit :=
  if String.eqb (GOOS env) "darwin" then
    enableSysProxy (sysProxyDevice env) (sysProxyPort env) ;;
    defer (disableSysProxy (sysProxyDevice env)) (executeRun_body ins)
  else executeRun_body ins.

(** A run of the process: [configFiles] starts as the flags left it. *)
Definition executeRun (ins : list input) : list event * outcome unit :=
  executeRun_M ins (flag_config env).

End Launcher.

End Run.

Import Run.

(* ================================================================== *)
(** ** Vocabulary of the statements *)
(* ================================================================== *)

(** A chain of literals, and an alternation of such chains: the shapes the
    parser produces for [toml] and for [(json|jsonc)]. *)
Fixpoint lits (w : list ascii) : regex :=
  match w with
  | [] => REps
  | c :: w' => RCat (RLit c) (lits w')
  end.

Fixpoint alts (ws : list (list ascii)) : regex :=
  match ws with
  | [] => RVoid
  | w :: ws' =>
      match ws' with
      | [] => lits w
      | _ :: _ => RAlt (lits w) (alts ws')
      end
  end.

(** The extension table of the directory scanner, as the specification
    gives it. *)
Inductive selector : Type := SelJson | SelToml | SelYaml | SelAuto.


Definition spec_extensions (f : selector) : list string :=
  match f with
  | SelJson => ["json"; "jsonc"]
  | SelToml => ["toml"]
  | SelYaml => ["yaml"; "yml"]
  | SelAuto => ["json"; "jsonc"; "toml"; "yaml"; "yml"]
  end.

Definition no_line_feed (s : string) : Prop := ~ In newline (bytes s).

(** [name] is [stem.ext] with [ext] in the list and a stem of at least one
    character, none of them a line feed (which [.] does not accept). *)
Definition has_ext (exts : list string) (name : string) : Prop :=
  exists stem ext,
    name = (stem ++ "." ++ ext)%string /\ stem <> "" /\
    no_line_feed stem /\ In ext exts.

(** The test of [readConfDir] on one entry name. *)
Definition matched (env : Env) (name : string) : option bool :=
  regexp_MatchString (getRegepxByFormat env) name.

Definition is_matched (env : Env) (name : string) : bool :=
  match matched env name with
  | Some b => b
  | None => false
  end.

(** The four patterns of [getRegepxByFormat], compiled. *)
Definition frame (tail : regex) : regex :=
  RCat (RPlus RAny) (RCat (RLit "."%char) tail).

Definition group (exts : list string) : regex :=
  RCat (alts (map bytes exts)) REps.

(** The four arms of the [switch]. *)
Inductive arm (env : Env) : list string -> Prop :=
| ArmJson :
    strings_ToLower (format env) = "json" ->
    getRegepxByFormat env = "^.+\.(json|jsonc)$" ->
    arm env (spec_extensions SelJson)
| ArmToml :
    strings_ToLower (format env) = "toml" ->
    getRegepxByFormat env = "^.+\.toml$" ->
    arm env (spec_extensions SelToml)
| ArmYaml :
    strings_ToLower (format env) = "yaml"
    \/ strings_ToLower (format env) = "yml" ->
    getRegepxByFormat env = "^.+\.(yaml|yml)$" ->
    arm env (spec_extensions SelYaml)
| ArmDefault :
    getRegepxByFormat env = "^.+\.(json|jsonc|toml|yaml|yml)$" ->
    arm env (spec_extensions SelAuto).


(** *** Reading a trace *)

Definition count (p : event -> bool) (t : list event) : nat :=
  List.length (filter p t).

Definition is_Start (e : event) : bool :=
  match e with Start _ => true | _ => false end.

Definition is_Close (e : event) : bool :=
  match e with Close _ => true | _ => false end.

(** Building the server: [core.LoadConfig], then [core.New]. *)
Definition is_build (e : event) : bool :=
  match e with LoadConfig _ _ | New _ => true | _ => false end.

Definition is_merge (e : event) : bool :=
  match e with GetMergedConfig _ => true | _ => false end.

(** Launching a goroutine: the two listeners of [executeRun], and the
    click loop of the tray. *)
Definition is_arm (e : event) : bool :=
  match e with Go _ => true | _ => false end.

Definition is_CloseEnd (e : event) : bool :=
  match e with CloseEnd => true | _ => false end.

Definition is_RecvEnd (e : event) : bool :=
  match e with RecvEnd => true | _ => false end.

(** The command that switches the system proxy on, or off. *)
Definition sets_proxy_state (state : string) (e : event) : bool :=
  match e with
  | Exec [_; flag; _; st] =>
      String.eqb flag "-setsocksfirewallproxystate" && String.eqb st state
  | _ => false
  end.

Definition is_enable : event -> bool := sets_proxy_state "on".
Definition is_disable : event -> bool := sets_proxy_state "off".

(** The inputs that end the wait: a signal, or a click on "Quit". *)
Definition is_stop (e : event) : bool :=
  match e with Recv Signal | Recv ClickQuit => true | _ => false end.

(** What is performed after the first such input has been received. *)
Fixpoint after_stop (t : list event) : list event :=
  match t with
  | [] => []
  | e :: r => if is_stop e then r else after_stop r
  end.

(** What is performed before the first event satisfying [p]. *)
Fixpoint before (p : event -> bool) (t : list event) : list event :=
  match t with
  | [] => []
  | e :: r => if p e then [] else e :: before p r
  end.

(** The first input that is not a toggle click. *)
Fixpoint first_stop (ins : list input) : option input :=
  match ins with
  | [] => None
  | ClickToggle :: r => first_stop r
  | i :: _ => Some i
  end.

(** Events of config resolution: directory listings and log lines. *)
Definition quiet (e : event) : bool :=
  match e with ReadDir _ | Log _ => true | _ => false end.

(** Events of the listeners while the main flow waits. *)
Definition listener_event (e : event) : bool :=
  match e with
  | Exec _ | Log _ | SetIcon _ | ItemSetTitle _ | Recv _ | CloseEnd => true
  | _ => false
  end.

(** Events of [startXray]: resolution, then the build. *)
Definition startup_event (e : event) : bool := quiet e || is_build e.

(** Events of [dumpConfig]: resolution, the merge, and its report. *)
Definition dump_event (e : event) : bool :=
  match e with
  | ReadDir _ | Log _ | GetMergedConfig _ | Call _ => true
  | _ => false
  end.

(** Events of a run that ends before the wait on [<-end]. *)
Definition prestart_event (e : event) : bool :=
  match e with
  | ReadDir _ | Log _ | Call _ | GetMergedConfig _ | LoadConfig _ _
  | New _ | Start _ => true
  | _ => false
  end.

(** What [executeRun] performs between a successful [Start] and the wait
    on [<-end]: the memory hygiene, the two goroutines, and [onReady]. *)
Definition arming : list event :=
  [Call "runtime.GC"; Call "debug.FreeOSMemory";
   Call "runtime.UnlockOSThread"; Go SignalListener; Go TrayLoop;
   Call "runtime.LockOSThread"; Call "systray.Run"; SetTitle "xray";
   SetIcon true; AddMenuItem "Disable"; AddMenuItem "Quit"; Go Background].

(** The events of [enableSysProxy] and of [disableSysProxy] with the
    device and port of the flags. *)
Definition enable_events (env : Env) : list event :=
  fst (enableSysProxy (sysProxyDevice env) (sysProxyPort env) []).

Definition disable_events (env : Env) : list event :=
  fst (disableSysProxy (sysProxyDevice env) []).

Definition on_darwin (env : Env) : bool := String.eqb (GOOS env) "darwin".

(** The files a successful scan of [dir] adds to [configFiles]. *)
Definition scanned (env : Env) (dir : string) (names : list string) : Arg :=
  map (fun n => path_Join [dir; n]) (filter (is_matched env) names).

(** [build]: what [startXray] obtains from the engine for [files]. *)
Definition build (env : Env) (files : Arg) : option Server :=
  match core_LoadConfig env (getConfigFormat env) files with
  | None => None
  | Some c => core_New env c
  end.

(** Resolution returns [files] (rather than dying in the scan). *)
Definition resolves (env : Env) (files : Arg) : Prop :=
  exists s,
    snd (getConfigFilePath env false (flag_config env)) = Done files s.

(** The run gets as far as a successful [server.Start()] on [srv]. *)
Definition starts (env : Env) (srv : Server) : Prop :=
  dump env = false /\ test env = false /\
  (exists files, resolves env files /\ build env files = Some srv) /\
  server_Start env srv = true.

(** *** More readings of a trace *)

Definition is_ReadDir (e : event) : bool :=
  match e with ReadDir _ => true | _ => false end.

Definition is_Exec (e : event) : bool :=
  match e with Exec _ => true | _ => false end.

Definition is_Log (e : event) : bool :=
  match e with Log _ => true | _ => false end.

(** The tray icon set to the enabled glyph ([true]) or to the one-byte
    glyph ([false]). *)
Definition is_icon (enabled : bool) (e : event) : bool :=
  match e with SetIcon b => Bool.eqb b enabled | _ => false end.

(** The toggle item relabelled [title]. *)
Definition is_label (title : string) (e : event) : bool :=
  match e with ItemSetTitle t => String.eqb t title | _ => false end.

(** The three commands of [enableSysProxy] and [disableSysProxy] for the
    device and port of the flags. *)
Definition set_target_cmd (env : Env) : list string :=
  ["networksetup"; "-setsocksfirewallproxy"; sysProxyDevice env;
   "127.0.0.1"; sysProxyPort env].

Definition set_state_cmd (env : Env) (state : string) : list string :=
  ["networksetup"; "-setsocksfirewallproxystate"; sysProxyDevice env; state].

(** The directory [getConfigFilePath] scans, if any: the one of the flag
    when it exists, else the one of the environment when it exists. *)
Definition scan_target (env : Env) : option string :=
  if dirExists env (configDir env) then Some (configDir env)
  else if dirExists env (platform_GetConfDirPath env)
       then Some (platform_GetConfDirPath env)
       else None.

(** The scan, if there is one, succeeds and adds no file. *)
Definition nothing_scanned (env : Env) : Prop :=
  match scan_target env with
  | None => True
  | Some d =>
      exists names, os_ReadDir env d = Some names /\ scanned env d names = []
  end.

(** What [getConfigFilePath] returns once no file has been found by the
    flags or by the scan: [config.json] of the working directory, else the
    file of the environment, else the default location under the home
    directory (nothing if that cannot be resolved). *)
Definition fallback (env : Env) : Arg :=
  let home_default :=
    match os_UserHomeDir env with
    | None => []
    | Some homeDir =>
        match filepath_Abs (os_Getwd env)
                (path_Join [homeDir; "/.xray/config.json"]) with
        | None => []
        | Some absolutePath => [absolutePath]
        end
    end in
  let env_or_home :=
    if fileExists env (platform_GetConfigurationPath env)
    then [platform_GetConfigurationPath env]
    else home_default in
  match os_Getwd env with
  | Some workingDir =>
      if fileExists env (path_Join [workingDir; "config.json"])
      then [path_Join [workingDir; "config.json"]]
      else env_or_home
  | None => env_or_home
  end.

(** [executeRun_body] on the flags' [configFiles], laid out by what
    resolution and the engine return. *)
Definition body_layout (env : Env) (ins : list input)
  : list event * outcome unit :=
  let fmt := getConfigFormat env in
  if dump env then
    match getConfigFilePath env false (flag_config env) with
    | (tr, Done files _) =>
        match core_GetMergedConfig env files with
        | None =>
            (Call "clog.ReplaceWithSeverityLogger"
               :: tr ++ [GetMergedConfig files; Log "merge error";
                         Call "time.Sleep"],
             Exited 23%Z)
        | Some config =>
            (Call "clog.ReplaceWithSeverityLogger"
               :: tr ++ [GetMergedConfig files; Log config],
             Exited 0%Z)
        end
    | (tr, Exited c) => (Call "clog.ReplaceWithSeverityLogger" :: tr, Exited c)
    | (tr, Blocked) => (Call "clog.ReplaceWithSeverityLogger" :: tr, Blocked)
    end
  else
    match getConfigFilePath env true (flag_config env) with
    | (tr, Done files s) =>
        match core_LoadConfig env fmt files with
        | None =>
            (Call "printVersion"
               :: tr ++ [LoadConfig fmt files; Log "Failed to start:"],
             Exited 23%Z)
        | Some c =>
            match core_New env c with
            | None =>
                (Call "printVersion"
                   :: tr ++ [LoadConfig fmt files; New c;
                             Log "Failed to start:"],
                 Exited 23%Z)
            | Some srv =>
                if test env then
                  (Call "printVersion"
                     :: tr ++ [LoadConfig fmt files; New c;
                               Log "Configuration OK."],
                   Exited 0%Z)
                else if server_Start env srv then
                  (Call "printVersion"
                     :: tr ++ [LoadConfig fmt files; New c; Start srv]
                     ++ arming ++ fst (listeners env 1 ins s)
                     ++ match snd (listeners env 1 ins s) with
                        | Done _ _ => [RecvEnd; Close srv]
                        | _ => []
                        end,
                   snd (listeners env 1 ins s))
                else
                  (Call "printVersion"
                     :: tr ++ [LoadConfig fmt files; New c; Start srv;
                               Log "Failed to start:"],
                   Exited (-1)%Z)
            end
        end
    | (tr, Exited c) => (Call "printVersion" :: tr, Exited c)
    | (tr, Blocked) => (Call "printVersion" :: tr, Blocked)
    end.

(* ================================================================== *)
(** ** Sample environments *)
(* ================================================================== *)

(** A machine described by its platform, flags, file system and engine
    behaviour; everything else is fixed. *)
Definition machine (goos : string) (files : Arg) (dir : string)
    (d t : bool) (stat : string -> option bool)
    (ls : string -> option (list string)) (home : option string)
    (envdir : string) (merge_ok build_ok start_ok : bool) : Env :=
  {| flag_config := files; configDir := dir; dump := d; test := t;
     format := "auto"; sysProxyPort := "19800"; sysProxyDevice := "Wi-Fi";
     GOOS := goos;
     os_Stat := stat; os_ReadDir := ls;
     os_Getwd := Some "/srv"; os_UserHomeDir := home;
     platform_GetConfDirPath := envdir;
     platform_GetConfigurationPath := "/usr/local/bin/config.json";
     core_GetMergedConfig := fun _ => if merge_ok then Some "{}" else None;
     core_GetFormatByExtension := fun f => f;
     core_LoadConfig := fun _ _ => if build_ok then Some 7 else None;
     core_New := fun c => Some c;
     server_Start := fun _ => start_ok |}.

Definition no_files : string -> option bool := fun _ => None.
Definition no_dirs : string -> option (list string) := fun _ => None.

(** No flag, no file, no directory anywhere; only the home directory
    varies. *)
Definition bare (home : option string) : Env :=
  machine "linux" [] "" false false no_files no_dirs home "" true true true.

(** One explicit file, no [-confdir], and a config directory declared by
    the environment that holds [b.json] and [notes.txt]. *)
Definition with_env_confdir : Env :=
  machine "linux" ["a.json"] "" false false
    (fun p => if String.eqb p "/etc/xray/confs" then Some true else None)
    (fun p => if String.eqb p "/etc/xray/confs"
              then Some ["b.json"; "notes.txt"] else None)
    (Some "/home/u") "/etc/xray/confs" true true true.

(** [-confdir /conf] names a directory that cannot be listed. *)
Definition unreadable_confdir (d : bool) : Env :=
  machine "linux" [] "/conf" d false
    (fun p => if String.eqb p "/conf" then Some true else None)
    no_dirs (Some "/home/u") "" true true true.

(** An explicit config file, nothing else around. *)
Definition plain (goos : string) (d t build_ok start_ok : bool) : Env :=
  machine goos ["/etc/xray/a.json"] "" d t no_files no_dirs
    (Some "/home/u") "" true build_ok start_ok.

(** Both config directories exist; the one of the flag holds [x.toml],
    the one of the environment holds [b.json]. *)
Definition two_confdirs : Env :=
  machine "linux" ["a.json"] "/conf" false false
    (fun p => if String.eqb p "/conf" then Some true
              else if String.eqb p "/etc/xray/confs" then Some true
              else None)
    (fun p => if String.eqb p "/conf" then Some ["x.toml"; "README"]
              else if String.eqb p "/etc/xray/confs" then Some ["b.json"]
              else None)
    (Some "/home/u") "/etc/xray/confs" true true true.

(** [-confdir] names a regular file; the directory of the environment
    exists and holds [b.json]. *)
Definition confdir_is_a_file : Env :=
  machine "linux" [] "/conf" false false
    (fun p => if String.eqb p "/conf" then Some false
              else if String.eqb p "/etc/xray/confs" then Some true
              else None)
    (fun p => if String.eqb p "/etc/xray/confs" then Some ["b.json"]
              else None)
    (Some "/home/u") "/etc/xray/confs" true true true.

(** No flag and no directory; [config.json] exists in the working
    directory ([cwd]) and at the location of the environment ([envf]). *)
Definition with_files (cwd envf : bool) (home : option string) : Env :=
  machine "linux" [] "" false false
    (fun p => if String.eqb p "/srv/config.json"
              then (if cwd then Some false else None)
              else if String.eqb p "/usr/local/bin/config.json"
                   then (if envf then Some false else None)
                   else None)
    no_dirs home "" true true true.

(** A machine whose format flag is [f]. *)
Definition with_format (f : string) : Env :=
  {| flag_config := []; configDir := ""; dump := false; test := false;
     format := f; sysProxyPort := "19800"; sysProxyDevice := "Wi-Fi";
     GOOS := "linux";
     os_Stat := no_files; os_ReadDir := no_dirs;
     os_Getwd := Some "/srv"; os_UserHomeDir := Some "/home/u";
     platform_GetConfDirPath := "";
     platform_GetConfigurationPath := "/usr/local/bin/config.json";
     core_GetMergedConfig := fun _ => Some "{}";
     core_GetFormatByExtension := fun _ => "";
     core_LoadConfig := fun _ _ => Some 7;
     core_New := fun c => Some c;
     server_Start := fun _ => true |}.

(* ================================================================== *)
(** ** The matcher agrees with the denotation *)
(* ================================================================== *)

Section MatcherCorrect.

Lemma nullable_sound r : nullable r = true -> lang r [].
Proof.
  induction r; simpl; intros H; try discriminate.
  - constructor.
  - apply andb_true_iff in H as [H1 H2].
    change (@nil ascii) with (@nil ascii ++ []). constructor; auto.
  - apply orb_true_iff in H as [H|H]; [apply L_alt_l | apply L_alt_r]; auto.
  - constructor.
  - change (@nil ascii) with (@nil ascii ++ []).
    constructor; [auto | constructor].
Qed.

Lemma nullable_complete r : lang r [] -> nullable r = true.
Proof.
  induction r; simpl; intros H; inversion H; subst; auto.
  - match goal with E : _ ++ _ = [] |- _ => apply app_eq_nil in E as [-> ->] end.
    rewrite IHr1, IHr2; auto.
  - rewrite IHr1; auto.
  - rewrite IHr2; auto. apply orb_true_r.
  - match goal with E : _ ++ _ = [] |- _ => apply app_eq_nil in E as [-> ->] end.
    auto.
Qed.

(** A non-empty match of a star starts with a non-empty match of its body. *)
Lemma star_cons_inv r c s :
  lang (RStar r) (c :: s) ->
  exists s1 s2, s = s1 ++ s2 /\ lang r (c :: s1) /\ lang (RStar r) s2.
Proof.
  intros H. remember (RStar r) as q eqn:Eq. remember (c :: s) as w eqn:Ew.
  revert c s Ew.
  induction H; intros c0 s0 Ew; try discriminate.
  injection Eq as ->.
  destruct s1 as [|d s1'].
  - simpl in Ew. subst s2. apply IHlang2; auto.
  - simpl in Ew. injection Ew as -> <-.
    exists s1', s2. auto.
Qed.

Lemma deriv_sound c r : forall s, lang (deriv c r) s -> lang r (c :: s).
Proof.
  induction r; simpl; intros s H.
  - inversion H.
  - inversion H.
  - destruct (Ascii.eqb c c0) eqn:E; inversion H; subst.
    apply Ascii.eqb_eq in E. subst. constructor.
  - destruct (Ascii.eqb c newline) eqn:E; inversion H; subst.
    constructor. intro Hc. subst. rewrite Ascii.eqb_refl in E. discriminate.
  - destruct (nullable r1) eqn:N.
    + inversion H; subst.
      * match goal with X : lang (RCat _ _) _ |- _ => inversion X; subst end.
        change (c :: s1 ++ s2) with ((c :: s1) ++ s2). constructor; auto.
      * change (c :: s) with ([] ++ c :: s).
        constructor; auto using nullable_sound.
    + inversion H; subst.
      change (c :: s1 ++ s2) with ((c :: s1) ++ s2). constructor; auto.
  - inversion H; subst; [apply L_alt_l | apply L_alt_r]; auto.
  - inversion H; subst.
    change (c :: s1 ++ s2) with ((c :: s1) ++ s2). constructor; auto.
  - inversion H; subst.
    change (c :: s1 ++ s2) with ((c :: s1) ++ s2). constructor; auto.
Qed.

Lemma deriv_complete c r : forall s, lang r (c :: s) -> lang (deriv c r) s.
Proof.
  induction r; simpl; intros s H.
  - inversion H.
  - inversion H.
  - inversion H; subst. rewrite Ascii.eqb_refl. constructor.
  - inversion H; subst.
    destruct (Ascii.eqb c newline) eqn:E.
    + apply Ascii.eqb_eq in E. contradiction.
    + constructor.
  - inversion H; subst.
    destruct s1 as [|d s1'].
    + match goal with E : [] ++ _ = _ |- _ => simpl in E; subst end.
      rewrite (nullable_complete r1) by assumption.
      apply L_alt_r. auto.
    + match goal with E : (_ :: _) ++ _ = _ |- _ =>
        simpl in E; injection E as -> <- end.
      destruct (nullable r1); [apply L_alt_l|]; constructor; auto.
  - inversion H; subst; [apply L_alt_l | apply L_alt_r]; auto.
  - apply star_cons_inv in H as (s1 & s2 & -> & Hs1 & Hs2).
    constructor; auto.
  - inversion H; subst.
    destruct s1 as [|d s1'].
    + match goal with E : [] ++ _ = _ |- _ => simpl in E; subst end.
      match goal with X : lang (RStar _) (_ :: _) |- _ =>
        apply star_cons_inv in X as (t1 & t2 & -> & Ht1 & Ht2) end.
      constructor; auto.
    + match goal with E : (_ :: _) ++ _ = _ |- _ =>
        simpl in E; injection E as -> <- end.
      constructor; auto.
Qed.

Lemma rmatch_lang r s : rmatch r s = true <-> lang r s.
Proof.
  revert r. induction s as [|c s IH]; intros r; simpl.
  - split; [apply nullable_sound | apply nullable_complete].
  - rewrite IH. split; [apply deriv_sound | apply deriv_complete].
Qed.

End MatcherCorrect.

(* ================================================================== *)
(** ** What the directory-scan patterns match *)
(* ================================================================== *)

Section Patterns.

Lemma bytes_app a b : bytes (a ++ b)%string = (bytes a ++ bytes b)%list.
Proof. induction a as [|c a IH]; simpl; [|rewrite IH]; reflexivity. Qed.

Lemma of_bytes_app a b :
  string_of_list_ascii (a ++ b)%list
  = (string_of_list_ascii a ++ string_of_list_ascii b)%string.
Proof. induction a as [|c a IH]; simpl; [|rewrite IH]; reflexivity. Qed.

Lemma bytes_inj a b : bytes a = bytes b -> a = b.
Proof.
  intros H. rewrite <- (string_of_list_ascii_of_string a),
    <- (string_of_list_ascii_of_string b).
  unfold bytes in H. rewrite H. reflexivity.
Qed.

Lemma lang_lits w s : lang (lits w) s <-> s = w.
Proof.
  revert s. induction w as [|c w IH]; intros s; simpl; split; intros H.
  - inversion H. reflexivity.
  - subst. constructor.
  - inversion H; subst.
    match goal with X : lang (RLit _) _ |- _ => inversion X; subst end.
    simpl. f_equal. apply IH. assumption.
  - subst. change (c :: w) with ([c] ++ w). constructor; [constructor|].
    apply IH. reflexivity.
Qed.

Lemma lang_alts ws s : lang (alts ws) s <-> In s ws.
Proof.
  induction ws as [|w ws IH]; simpl.
  - split; intros H; [inversion H | contradiction].
  - destruct ws as [|w' ws'].
    + rewrite lang_lits. simpl. intuition.
    + split; intros H.
      * inversion H; subst.
        -- left. symmetry. apply lang_lits. assumption.
        -- right. apply IH. assumption.
      * destruct H as [<-|H].
        -- apply L_alt_l. apply lang_lits. reflexivity.
        -- apply L_alt_r. apply IH. assumption.
Qed.

Lemma lang_cat_eps r s : lang (RCat r REps) s <-> lang r s.
Proof.
  split; intros H.
  - inversion H; subst.
    match goal with X : lang REps _ |- _ => inversion X; subst end.
    rewrite app_nil_r. assumption.
  - rewrite <- (app_nil_r s). constructor; [assumption | constructor].
Qed.

Lemma lang_star_any s :
  lang (RStar RAny) s <-> Forall (fun c => c <> newline) s.
Proof.
  split.
  - intros H. remember (RStar RAny) as q eqn:Eq.
    induction H; try discriminate.
    + constructor.
    + injection Eq as ->. inversion H; subst. simpl. constructor; auto.
  - induction 1 as [|c s Hc _ IH].
    + constructor.
    + change (c :: s) with ([c] ++ s). constructor; [constructor|]; auto.
Qed.

Lemma lang_plus_any s :
  lang (RPlus RAny) s <-> s <> [] /\ Forall (fun c => c <> newline) s.
Proof.
  split.
  - intros H. inversion H; subst.
    match goal with X : lang RAny _ |- _ => inversion X; subst end.
    simpl. split; [discriminate|]. constructor; [assumption|].
    apply lang_star_any. assumption.
  - intros [Hne Hall]. destruct s as [|c s]; [contradiction|].
    inversion Hall; subst.
    change (c :: s) with ([c] ++ s). constructor.
    + constructor. assumption.
    + apply lang_star_any. assumption.
Qed.

(** The common frame [.+\.tail]. *)
Lemma lang_stem_dot tail s :
  lang (RCat (RPlus RAny) (RCat (RLit "."%char) tail)) s <->
  exists stem ext,
    s = (stem ++ "."%char :: ext)%list /\ stem <> [] /\
    Forall (fun c => c <> newline) stem /\ lang tail ext.
Proof.
  split.
  - intros H. inversion H; subst.
    match goal with X : lang (RCat (RLit _) _) _ |- _ => inversion X; subst end.
    match goal with X : lang (RLit _) _ |- _ => inversion X; subst end.
    match goal with X : lang (RPlus _) _ |- _ =>
      apply lang_plus_any in X as [Hne Hall] end.
    eexists _, _. split; [reflexivity|]. auto.
  - intros (stem & ext & -> & Hne & Hall & Ht).
    constructor.
    + apply lang_plus_any. auto.
    + change ("."%char :: ext) with (["."%char] ++ ext).
      constructor; [constructor | assumption].
Qed.

Lemma compile_json :
  regexp_Compile "^.+\.(json|jsonc)$"
  = Some (frame (group (spec_extensions SelJson))).
Proof. reflexivity. Qed.

Lemma compile_toml :
  regexp_Compile "^.+\.toml$" = Some (frame (lits (bytes "toml"))).
Proof. reflexivity. Qed.

Lemma compile_yaml :
  regexp_Compile "^.+\.(yaml|yml)$"
  = Some (frame (group (spec_extensions SelYaml))).
Proof. reflexivity. Qed.

Lemma compile_auto :
  regexp_Compile "^.+\.(json|jsonc|toml|yaml|yml)$"
  = Some (frame (group (spec_extensions SelAuto))).
Proof. reflexivity. Qed.

Lemma frame_has_ext tail exts name :
  (forall e, lang tail e <-> In e (map bytes exts)) ->
  rmatch (frame tail) (bytes name) = true <-> has_ext exts name.
Proof.
  intros Ht. rewrite rmatch_lang. unfold frame. rewrite lang_stem_dot.
  split.
  - intros (stem & ext & E & Hne & Hall & Hl).
    apply Ht in Hl. apply in_map_iff in Hl as (e & <- & Hin).
    exists (string_of_list_ascii stem), e. repeat split.
    + apply bytes_inj. rewrite E, !bytes_app. unfold bytes at 2.
      rewrite list_ascii_of_string_of_list_ascii. reflexivity.
    + intros Hs. apply Hne.
      rewrite <- (list_ascii_of_string_of_list_ascii stem), Hs. reflexivity.
    + unfold no_line_feed, bytes.
      rewrite list_ascii_of_string_of_list_ascii.
      intros Hin'. rewrite Forall_forall in Hall. exact (Hall _ Hin' eq_refl).
    + assumption.
  - intros (stem & ext & -> & Hne & Hnl & Hin).
    exists (bytes stem), (bytes ext). repeat split.
    + rewrite !bytes_app. reflexivity.
    + intros Hs. apply Hne. apply bytes_inj. rewrite Hs. reflexivity.
    + apply Forall_forall. intros c Hc ->. exact (Hnl Hc).
    + apply Ht. apply in_map. assumption.
Qed.

Lemma group_tail exts e :
  lang (group exts) e <-> In e (map bytes exts).
Proof. unfold group. rewrite lang_cat_eps. apply lang_alts. Qed.

Lemma lits_tail w e :
  lang (lits (bytes w)) e <-> In e (map bytes [w]).
Proof. rewrite lang_lits. simpl. intuition. Qed.

Lemma getRegepxByFormat_arm env : exists exts, arm env exts.
Proof.
  unfold getRegepxByFormat.
  destruct (String.eqb (strings_ToLower (format env)) "json") eqn:E1.
  { eexists. apply ArmJson.
    - apply String.eqb_eq. assumption.
    - unfold getRegepxByFormat. rewrite E1. reflexivity. }
  destruct (String.eqb (strings_ToLower (format env)) "toml") eqn:E2.
  { eexists. apply ArmToml.
    - apply String.eqb_eq. assumption.
    - unfold getRegepxByFormat. rewrite E1, E2. reflexivity. }
  destruct (String.eqb (strings_ToLower (format env)) "yaml"
            || String.eqb (strings_ToLower (format env)) "yml") eqn:E3.
  { eexists. apply ArmYaml.
    - apply orb_true_iff in E3 as [E|E]; apply String.eqb_eq in E; auto.
    - unfold getRegepxByFormat. rewrite E1, E2, E3. reflexivity. }
  eexists. apply ArmDefault.
  unfold getRegepxByFormat. rewrite E1, E2, E3. reflexivity.
Qed.

(** Under each arm the test is exactly membership in that arm's table. *)
Lemma arm_matched env exts name :
  arm env exts -> matched env name = Some true <-> has_ext exts name.
Proof.
  intros A. unfold matched, regexp_MatchString.
  destruct A as [_ -> | _ -> | _ -> | ->].
  - rewrite compile_json. rewrite <- (frame_has_ext _ _ _ (group_tail _)).
    split; [intros [= H]; exact H | intros ->; reflexivity].
  - rewrite compile_toml. change (spec_extensions SelToml) with ["toml"].
    rewrite <- (frame_has_ext _ _ _ (lits_tail "toml")).
    split; [intros [= H]; exact H | intros ->; reflexivity].
  - rewrite compile_yaml. rewrite <- (frame_has_ext _ _ _ (group_tail _)).
    split; [intros [= H]; exact H | intros ->; reflexivity].
  - rewrite compile_auto. rewrite <- (frame_has_ext _ _ _ (group_tail _)).
    split; [intros [= H]; exact H | intros ->; reflexivity].
Qed.

(** The patterns always compile: the fatal branch after
    [regexp.MatchString] is never taken. *)
Lemma matched_total env name : matched env name = Some (is_matched env name).
Proof.
  unfold is_matched, matched, regexp_MatchString.
  destruct (getRegepxByFormat_arm env) as [exts [_ -> | _ -> | _ -> | ->]];
    reflexivity.
Qed.

Lemma has_ext_mono exts exts' name :
  incl exts exts' -> has_ext exts name -> has_ext exts' name.
Proof.
  intros Hi (stem & ext & E & Hne & Hnl & Hin).
  exists stem, ext. auto.
Qed.

Lemma arm_incl_auto env exts :
  arm env exts -> incl exts (spec_extensions SelAuto).
Proof.
  intros A e He. destruct A; simpl in *; intuition.
Qed.

End Patterns.


(* ================================================================== *)
(** ** Traces and the monad *)
(* ================================================================== *)

(** Case analysis on what the code inspects, innermost test first. *)
Ltac break_match :=
  match goal with
  | |- context [match ?x with _ => _ end] =>
      lazymatch x with
      | context [match _ with _ => _ end] => fail
      | _ => destruct x eqn:?
      end
  end.

(** A predicate that rejects every event of a class. *)
Ltac reject :=
  let e := fresh "e" in
  let He := fresh "He" in
  intros e He; destruct e; simpl in He |- *;
  try discriminate He; reflexivity.

Section Traces.

Lemma count_app p a b : count p (a ++ b) = count p a + count p b.
Proof. unfold count. rewrite filter_app, length_app. reflexivity. Qed.

Lemma count_cons p e t :
  count p (e :: t) = (if p e then 1 else 0) + count p t.
Proof. unfold count. simpl. destruct (p e); reflexivity. Qed.

Lemma count_nil p : count p [] = 0.
Proof. reflexivity. Qed.

(** Events of one class are not counted by a predicate that rejects the
    class. *)
Lemma count_class (cls p : event -> bool) t :
  (forall e, cls e = true -> p e = false) ->
  Forall (fun e => cls e = true) t -> count p t = 0.
Proof.
  intros Hc. induction 1 as [|e t He _ IH]; [reflexivity|].
  rewrite count_cons, (Hc _ He), IH. reflexivity.
Qed.

Lemma before_app p a b :
  count p a = 0 -> before p (a ++ b) = a ++ before p b.
Proof.
  induction a as [|e a IH]; simpl; intros H; [reflexivity|].
  rewrite count_cons in H. destruct (p e); [discriminate|].
  rewrite IH by exact H. reflexivity.
Qed.

Lemma after_stop_skip a b :
  count is_stop a = 0 -> after_stop (a ++ b) = after_stop b.
Proof.
  induction a as [|e a IH]; simpl; intros H; [reflexivity|].
  rewrite count_cons in H. destruct (is_stop e); [discriminate|].
  apply IH. exact H.
Qed.

Lemma after_stop_app a b :
  0 < count is_stop a -> after_stop (a ++ b) = after_stop a ++ b.
Proof.
  induction a as [|e a IH]; simpl; intros H.
  - inversion H.
  - rewrite count_cons in H. destruct (is_stop e); [reflexivity|].
    apply IH. exact H.
Qed.

Lemma bind_Done {A B} (m : M A) (f : A -> M B) s t a s' :
  m s = (t, Done a s') ->
  bind m f s = (t ++ fst (f a s'), snd (f a s')).
Proof. unfold bind. intros ->. destruct (f a s'). reflexivity. Qed.

Lemma bind_Exited {A B} (m : M A) (f : A -> M B) s t c :
  m s = (t, Exited c) -> bind m f s = (t, Exited c).
Proof. unfold bind. intros ->. reflexivity. Qed.

Lemma bind_Blocked {A B} (m : M A) (f : A -> M B) s t :
  m s = (t, Blocked) -> bind m f s = (t, Blocked).
Proof. unfold bind. intros ->. reflexivity. Qed.

End Traces.

Ltac counts :=
  repeat (rewrite count_app || rewrite count_cons || rewrite count_nil).

(* ================================================================== *)
(** ** Config resolution *)
(* ================================================================== *)

Section Resolution.

Variable env : Env.

(** The loop of [readConfDir] never aborts: it appends the matching
    entries, joined to the directory, in listing order. *)
Lemma for_each_entries dir names s :
  for_each (readConfDir_entry env dir) names s
  = ([], Done tt (s ++ scanned env dir names)).
Proof.
  revert s. induction names as [|n names IH]; intros s.
  - simpl. unfold ret, scanned. simpl. rewrite app_nil_r. reflexivity.
  - simpl. unfold readConfDir_entry at 1.
    fold (matched env n). rewrite matched_total.
    unfold scanned. simpl. destruct (is_matched env n) eqn:E.
    + unfold configFiles_Set, bind, get_configFiles, set_configFiles. simpl.
      rewrite IH. unfold scanned. simpl. rewrite <- app_assoc. reflexivity.
    + unfold bind, ret. simpl. rewrite IH. reflexivity.
Qed.

Lemma readConfDir_eq dir s :
  readConfDir env dir s =
  match os_ReadDir env dir with
  | None => ([ReadDir dir; Log "os.ReadDir error"], Exited 1%Z)
  | Some names => ([ReadDir dir], Done tt (s ++ scanned env dir names))
  end.
Proof.
  unfold readConfDir, bind, emit. simpl.
  destruct (os_ReadDir env dir) as [names|].
  - rewrite for_each_entries. reflexivity.
  - reflexivity.
Qed.

Ltac resolution_cases v :=
  unfold getConfigFilePath, bind, when, ret, emit, get_configFiles;
  destruct (dirExists env (configDir env));
    [|destruct (dirExists env (platform_GetConfDirPath env))];
  destruct v; cbn beta iota; rewrite ?readConfDir_eq;
  repeat (break_match; cbn [fst snd app]).

(** Resolution only lists directories and logs; it returns a list of
    files, or dies in [log.Fatalln] with exit code 1. *)
Lemma resolution_outcome v s :
  Forall (fun e => quiet e = true) (fst (getConfigFilePath env v s)) /\
  ((exists files s', snd (getConfigFilePath env v s) = Done files s')
   \/ snd (getConfigFilePath env v s) = Exited 1%Z).
Proof.
  resolution_cases v.
  all: split; [repeat constructor | eauto].
Qed.

(** [verbose] changes the log lines, not the result. *)
Lemma resolution_verbose v s :
  snd (getConfigFilePath env v s) = snd (getConfigFilePath env false s).
Proof.
  destruct v; [|reflexivity].
  unfold getConfigFilePath, bind, when, ret, emit, get_configFiles.
  destruct (dirExists env (configDir env));
    [|destruct (dirExists env (platform_GetConfDirPath env))];
    cbn beta iota; rewrite ?readConfDir_eq;
    repeat (break_match; cbn [fst snd app]);
    congruence.
Qed.

Lemma resolution_quiet p v s :
  (forall e, quiet e = true -> p e = false) ->
  count p (fst (getConfigFilePath env v s)) = 0.
Proof.
  intros H. apply (count_class quiet); [exact H|].
  apply resolution_outcome.
Qed.

End Resolution.

(* ================================================================== *)
(** ** Properties of config resolution *)
(* ================================================================== *)

(** C7 (as amended).  When the explicit file list is non-empty, no
    directory flag is given, and the directory declared by the
    environment does not exist as a directory, resolution returns exactly
    the explicit list, unchanged and in order, without any logging. *)
Theorem explicit_files_returned_unchanged (env : Env) (verbose : bool) :
  flag_config env <> [] ->
  configDir env = "" ->
  dirExists env (platform_GetConfDirPath env) = false ->
  getConfigFilePath env verbose (flag_config env)
  = ([], Done (flag_config env) (flag_config env)).
Proof.
  intros Hne Hdir Henv.
  unfold getConfigFilePath, bind, when, ret, emit, get_configFiles.
  rewrite Hdir, Henv. simpl.
  destruct (flag_config env) as [|f fs]; [contradiction|]. reflexivity.
Qed.

Lemma explicit_files_returned_unchanged_witness :
  getConfigFilePath (plain "linux" false false true true) true
    ["/etc/xray/a.json"]
  = ([], Done ["/etc/xray/a.json"] ["/etc/xray/a.json"]).
Proof.
  apply (explicit_files_returned_unchanged
           (plain "linux" false false true true) true).
  - discriminate.
  - reflexivity.
  - reflexivity.
Defined.

(** C7 (as stated) fails: with an explicit file, no directory flag, and a
    config directory declared by the environment that holds [b.json], the
    scanned file is appended to the explicit one. *)
Lemma explicit_files_env_confdir_counterexample :
  let env := with_env_confdir in
  let r := getConfigFilePath env false (flag_config env) in
  flag_config env = ["a.json"] /\ configDir env = "" /\
  snd r = Done ["a.json"; "/etc/xray/confs/b.json"]
               ["a.json"; "/etc/xray/confs/b.json"] /\
  forall s, snd r <> Done (flag_config env) s.
Proof.
  cbv zeta. repeat split.
  intros s H. vm_compute in H. discriminate H.
Qed.

(** C8.  With no explicit file, no config directory (flag or
    environment), no [config.json] in the working directory and no config
    file declared by the environment: a home directory [/home/u] gives
    exactly [/home/u/.xray/config.json], and an unresolvable home
    directory gives the empty list. *)
Theorem default_location (env : Env) (verbose : bool) :
  flag_config env = [] ->
  dirExists env (configDir env) = false ->
  dirExists env (platform_GetConfDirPath env) = false ->
  (forall wd, os_Getwd env = Some wd ->
              fileExists env (path_Join [wd; "config.json"]) = false) ->
  fileExists env (platform_GetConfigurationPath env) = false ->
  (os_UserHomeDir env = Some "/home/u" ->
   snd (getConfigFilePath env verbose (flag_config env))
   = Done ["/home/u/.xray/config.json"] []) /\
  (os_UserHomeDir env = None ->
   snd (getConfigFilePath env verbose (flag_config env)) = Done [] []).
Proof.
  intros Hf Hd He Hwd Hcf.
  rewrite resolution_verbose.
  unfold getConfigFilePath, bind, when, ret, emit, get_configFiles.
  rewrite Hf, Hd, He. cbn beta iota. simpl List.length. cbn beta iota.
  assert (Hcwd :
    match os_Getwd env with
    | Some workingDir =>
        if fileExists env (path_Join [workingDir; "config.json"])
        then Some (path_Join [workingDir; "config.json"]) else None
    | None => None
    end = None).
  { destruct (os_Getwd env) as [wd|] eqn:E; [|reflexivity].
    rewrite (Hwd wd eq_refl). reflexivity. }
  split; intros Hhome.
  - cbn -[path_Join fileExists filepath_Abs]. rewrite Hcwd, Hcf, Hhome.
    reflexivity.
  - cbn -[path_Join fileExists filepath_Abs]. rewrite Hcwd, Hcf, Hhome.
    reflexivity.
Qed.

Lemma default_location_witness :
  snd (getConfigFilePath (bare (Some "/home/u")) true [])
  = Done ["/home/u/.xray/config.json"] [] /\
  snd (getConfigFilePath (bare None) true []) = Done [] [].
Proof.
  split.
  - apply (default_location (bare (Some "/home/u")) true);
      try reflexivity.
  - apply (default_location (bare None) true); try reflexivity.
Defined.

(* ================================================================== *)
(** ** Properties of the directory scan *)
(* ================================================================== *)


Lemma matched_in_table env name :
  matched env name = Some true -> has_ext (spec_extensions SelAuto) name.
Proof.
  intros H. destruct (getRegepxByFormat_arm env) as [exts A].
  apply (has_ext_mono exts); [exact (arm_incl_auto _ _ A)|].
  apply (arm_matched env exts name A). exact H.
Qed.



(** C10.  A name made of a dot followed by an extension (no further dot)
    is never selected, whatever the format flag: nothing stands before the
    dot for [.+] to match. *)
Theorem bare_extension_never_matches (env : Env) (ext : string) :
  ~ In "."%char (bytes ext) ->
  matched env ("." ++ ext) = Some false.
Proof.
  intros Hdot. rewrite matched_total.
  destruct (is_matched env ("." ++ ext)) eqn:E; [exfalso|reflexivity].
  assert (H : matched env ("." ++ ext) = Some true)
    by (rewrite matched_total, E; reflexivity).
  apply matched_in_table in H as (stem & e & Heq & Hne & _ & _).
  destruct stem as [|c stem']; [contradiction|].
  simpl in Heq. injection Heq as _ Heq.
  apply Hdot. rewrite Heq, bytes_app. apply in_or_app. right.
  simpl. left. reflexivity.
Qed.

Lemma bare_extension_never_matches_witness :
  matched (bare None) ".json" = Some false.
Proof.
  apply (bare_extension_never_matches (bare None) "json").
  simpl. intuition discriminate.
Defined.

(* ================================================================== *)
(** ** The phases of [executeRun] *)
(* ================================================================== *)

Section Phases.

Variable env : Env.

Lemma startXray_eq s :
  startXray env s =
  match getConfigFilePath env true s with
  | (t, Done files s') =>
      match core_LoadConfig env (getConfigFormat env) files with
      | None =>
          (t ++ [LoadConfig (getConfigFormat env) files],
           Done (inl "failed to load config files") s')
      | Some c =>
          match core_New env c with
          | None =>
              (t ++ [LoadConfig (getConfigFormat env) files; New c],
               Done (inl "failed to create server") s')
          | Some server =>
              (t ++ [LoadConfig (getConfigFormat env) files; New c],
               Done (inr server) s')
          end
      end
  | (t, Exited c) => (t, Exited c)
  | (t, Blocked) => (t, Blocked)
  end.
Proof.
  unfold startXray, bind.
  destruct (getConfigFilePath env true s) as [t [files s'|c|]];
    try reflexivity.
  unfold emit, ret.
  destruct (core_LoadConfig env (getConfigFormat env) files) as [c|];
    [destruct (core_New env c)|]; reflexivity.
Qed.

Lemma dumpConfig_eq s :
  dumpConfig env s =
  match getConfigFilePath env false s with
  | (t, Done files s') =>
      match core_GetMergedConfig env files with
      | None =>
          (t ++ [GetMergedConfig files; Log "merge error"; Call "time.Sleep"],
           Done 23%Z s')
      | Some config =>
          (t ++ [GetMergedConfig files; Log config], Done 0%Z s')
      end
  | (t, Exited c) => (t, Exited c)
  | (t, Blocked) => (t, Blocked)
  end.
Proof.
  unfold dumpConfig, bind.
  destruct (getConfigFilePath env false s) as [t [files s'|c|]];
    try reflexivity.
  unfold emit, ret.
  destruct (core_GetMergedConfig env files); reflexivity.
Qed.

Lemma quiet_startup e : quiet e = true -> startup_event e = true.
Proof. unfold startup_event. intros ->. reflexivity. Qed.

Lemma quiet_dump e : quiet e = true -> dump_event e = true.
Proof. destruct e; simpl; congruence. Qed.

Lemma Forall_class_weaken (c1 c2 : event -> bool) t :
  (forall e, c1 e = true -> c2 e = true) ->
  Forall (fun e => c1 e = true) t -> Forall (fun e => c2 e = true) t.
Proof. intros H. apply Forall_impl. exact H. Qed.

Lemma startXray_class s :
  Forall (fun e => startup_event e = true) (fst (startXray env s)).
Proof.
  rewrite startXray_eq.
  pose proof (proj1 (resolution_outcome env true s)) as Q.
  apply (Forall_class_weaken _ _ _ quiet_startup) in Q.
  destruct (getConfigFilePath env true s) as [t [files s'|c|]];
    simpl in *; try exact Q.
  destruct (core_LoadConfig env (getConfigFormat env) files) as [c|];
    [destruct (core_New env c)|]; simpl;
    apply Forall_app; split; try exact Q; repeat constructor.
Qed.

Lemma dumpConfig_class s :
  Forall (fun e => dump_event e = true) (fst (dumpConfig env s)).
Proof.
  rewrite dumpConfig_eq.
  pose proof (proj1 (resolution_outcome env false s)) as Q.
  apply (Forall_class_weaken _ _ _ quiet_dump) in Q.
  destruct (getConfigFilePath env false s) as [t [files s'|c|]];
    simpl in *; try exact Q.
  destruct (core_GetMergedConfig env files); simpl;
    apply Forall_app; split; try exact Q; repeat constructor.
Qed.

(** [startXray] and [dumpConfig] return, or die in the directory scan. *)
Lemma startXray_outcome s :
  (exists r s', snd (startXray env s) = Done r s')
  \/ snd (startXray env s) = Exited 1%Z.
Proof.
  rewrite startXray_eq.
  destruct (proj2 (resolution_outcome env true s)) as [(f & s' & H)|H];
    destruct (getConfigFilePath env true s) as [t o]; simpl in H; subst o.
  - left. destruct (core_LoadConfig env (getConfigFormat env) f) as [c|];
      [destruct (core_New env c)|]; simpl; eauto.
  - right. reflexivity.
Qed.

(** The listeners: what the first input that is not a toggle decides. *)
Lemma listeners_spec ins : forall st s,
  Forall (fun e => listener_event e = true) (fst (listeners env st ins s)) /\
  match first_stop ins with
  | Some Signal =>
      snd (listeners env st ins s) = Done tt s /\
      count is_CloseEnd (fst (listeners env st ins s)) = 1 /\
      0 < count is_stop (fst (listeners env st ins s)) /\
      after_stop (fst (listeners env st ins s)) = [CloseEnd]
  | Some ClickQuit =>
      snd (listeners env st ins s) = Exited 0%Z /\
      count is_CloseEnd (fst (listeners env st ins s)) = 0 /\
      0 < count is_stop (fst (listeners env st ins s)) /\
      after_stop (fst (listeners env st ins s)) = []
  | Some ClickToggle => False
  | None =>
      snd (listeners env st ins s) = Blocked /\
      count is_CloseEnd (fst (listeners env st ins s)) = 0 /\
      count is_stop (fst (listeners env st ins s)) = 0
  end.
Proof.
  induction ins as [|i ins IH]; intros st s.
  - simpl. repeat split; constructor.
  - destruct i; simpl.
    + repeat split; repeat constructor.
    + repeat split; repeat constructor.
    + unfold background.
      destruct (Z.eqb st 1).
      * specialize (IH 0%Z s). destruct IH as [IHc IHo].
        unfold disableSysProxy; unfold bind, emit, ret. simpl.
        destruct (listeners env 0 ins s) as [t o]. simpl in *.
        split; [repeat constructor; exact IHc|].
        destruct (first_stop ins) as [[| |]|]; try exact IHo;
          destruct o; simpl in *; intuition (try discriminate; auto).
      * specialize (IH 1%Z s). destruct IH as [IHc IHo].
        unfold enableSysProxy; unfold bind, emit, ret. simpl.
        destruct (listeners env 1 ins s) as [t o]. simpl in *.
        split; [repeat constructor; exact IHc|].
        destruct (first_stop ins) as [[| |]|]; try exact IHo;
          destruct o; simpl in *; intuition (try discriminate; auto).
Qed.

End Phases.

(* ================================================================== *)
(** ** [executeRun], mode by mode *)
(* ================================================================== *)

Section Modes.

Variable env : Env.
Variable ins : list input.

Ltac open_body :=
  unfold executeRun_body, defer, trayLoop, onReady;
  unfold bind, emit, ret, os_Exit.

Lemma body_dump s :
  dump env = true ->
  executeRun_body env ins s =
  (Call "clog.ReplaceWithSeverityLogger" :: fst (dumpConfig env s),
   match snd (dumpConfig env s) with
   | Done code _ => Exited code
   | Exited c => Exited c
   | Blocked => Blocked
   end).
Proof.
  intros Hd. open_body. rewrite Hd.
  destruct (dumpConfig env s) as [t [code s'|c|]]; simpl;
    rewrite ?app_nil_r; reflexivity.
Qed.

Lemma body_aborted s t c :
  dump env = false ->
  startXray env s = (t, Exited c) ->
  executeRun_body env ins s = (Call "printVersion" :: t, Exited c).
Proof.
  intros Hd Hs. open_body. rewrite Hd, Hs. reflexivity.
Qed.

Lemma body_build_failed s t msg s' :
  dump env = false ->
  startXray env s = (t, Done (inl msg) s') ->
  executeRun_body env ins s
  = (Call "printVersion" :: t ++ [Log "Failed to start:"], Exited 23%Z).
Proof.
  intros Hd Hs. open_body. rewrite Hd, Hs. reflexivity.
Qed.

Lemma body_test s t srv s' :
  dump env = false -> test env = true ->
  startXray env s = (t, Done (inr srv) s') ->
  executeRun_body env ins s
  = (Call "printVersion" :: t ++ [Log "Configuration OK."], Exited 0%Z).
Proof.
  intros Hd Ht Hs. open_body. rewrite Hd, Hs, Ht. reflexivity.
Qed.

Lemma body_start_failed s t srv s' :
  dump env = false -> test env = false ->
  startXray env s = (t, Done (inr srv) s') ->
  server_Start env srv = false ->
  executeRun_body env ins s
  = (Call "printVersion" :: t ++ [Start srv; Log "Failed to start:"],
     Exited (-1)%Z).
Proof.
  intros Hd Ht Hs Hst. open_body. rewrite Hd, Hs, Ht, Hst. reflexivity.
Qed.

Lemma body_running s t srv s' :
  dump env = false -> test env = false ->
  startXray env s = (t, Done (inr srv) s') ->
  server_Start env srv = true ->
  executeRun_body env ins s =
  (Call "printVersion" :: t ++ Start srv :: arming
     ++ fst (listeners env 1 ins s')
     ++ match snd (listeners env 1 ins s') with
        | Done _ _ => [RecvEnd; Close srv]
        | _ => []
        end,
   snd (listeners env 1 ins s')).
Proof.
  intros Hd Ht Hs Hst. open_body. rewrite Hd, Hs, Ht, Hst. simpl.
  destruct (listeners env 1 ins s') as [tl [[] s''|c|]]; simpl;
    rewrite ?app_nil_r, <- ?app_assoc; reflexivity.
Qed.

(** The platform block around the body: on darwin the proxy is switched
    on first, and switched off when (and only when) the body returns. *)
Lemma executeRun_eq :
  executeRun env ins =
  if on_darwin env then
    (enable_events env ++ fst (executeRun_body env ins (flag_config env))
       ++ match snd (executeRun_body env ins (flag_config env)) with
          | Done _ _ => disable_events env
          | _ => []
          end,
     snd (executeRun_body env ins (flag_config env)))
  else executeRun_body env ins (flag_config env).
Proof.
  unfold executeRun, executeRun_M, on_darwin.
  destruct (String.eqb (GOOS env) "darwin"); [|reflexivity].
  unfold defer, enableSysProxy, disableSysProxy, enable_events,
    disable_events; unfold bind, emit, ret. simpl.
  destruct (executeRun_body env ins (flag_config env)) as [t [[] s|c|]];
    simpl; rewrite ?app_nil_r; reflexivity.
Qed.

End Modes.

(* ================================================================== *)
(** ** The running phase *)
(* ================================================================== *)

Section Running.

Variable env : Env.

Lemma startXray_build files :
  resolves env files ->
  exists t s,
    Forall (fun e => startup_event e = true) t /\
    In (LoadConfig (getConfigFormat env) files) t /\
    startXray env (flag_config env)
    = (t, Done match build env files with
               | Some srv => inr srv
               | None =>
                   match core_LoadConfig env (getConfigFormat env) files with
                   | None => inl "failed to load config files"
                   | Some _ => inl "failed to create server"
                   end
               end s).
Proof.
  intros [s H]. rewrite <- (resolution_verbose env true) in H.
  pose proof (startXray_class env (flag_config env)) as C.
  rewrite startXray_eq in *. unfold build.
  destruct (getConfigFilePath env true (flag_config env)) as [t o].
  simpl in H. subst o.
  destruct (core_LoadConfig env (getConfigFormat env) files) as [c|];
    [destruct (core_New env c)|]; simpl in C;
    eexists _, _; (split; [exact C|]);
    (split; [apply in_or_app; right; simpl; auto | reflexivity]).
Qed.

Lemma starts_startXray srv :
  starts env srv ->
  exists t s,
    Forall (fun e => startup_event e = true) t /\
    startXray env (flag_config env) = (t, Done (inr srv) s).
Proof.
  intros (_ & _ & (files & R & B) & _).
  destruct (startXray_build files R) as (t & s & C & _ & E).
  rewrite B in E. eauto.
Qed.

(** The whole trace of a run whose [Start] succeeded: what precedes the
    wait, what the listeners do, and what follows the wait (only if the
    wait ends). *)
Lemma running_shape ins srv :
  starts env srv ->
  exists t0 s',
    Forall (fun e => startup_event e = true) t0 /\
    fst (executeRun env ins)
    = ((if on_darwin env then enable_events env else [])
         ++ Call "printVersion" :: t0 ++ Start srv :: arming)
      ++ fst (listeners env 1 ins s')
      ++ match snd (listeners env 1 ins s') with
         | Done _ _ =>
             [RecvEnd; Close srv]
               ++ (if on_darwin env then disable_events env else [])
         | _ => []
         end /\
    snd (executeRun env ins) = snd (listeners env 1 ins s').
Proof.
  intros St. destruct (starts_startXray srv St) as (t0 & s' & C & E).
  destruct St as (Hd & Ht & _ & Hs).
  exists t0, s'. split; [exact C|].
  rewrite executeRun_eq, (body_running env ins _ _ _ _ Hd Ht E Hs).
  destruct (on_darwin env); cbn [fst snd];
    destruct (snd (listeners env 1 ins s')); split; try reflexivity;
    cbn [app]; rewrite <- ?app_assoc; cbn [app];
    rewrite <- ?app_assoc; cbn [app]; rewrite ?app_nil_r; reflexivity.
Qed.

End Running.

(* ================================================================== *)
(** ** Runs that end before the wait *)
(* ================================================================== *)

Section Prestart.

Variable env : Env.
Variable ins : list input.

Lemma dumpConfig_outcome s :
  (exists code s', snd (dumpConfig env s) = Done code s')
  \/ snd (dumpConfig env s) = Exited 1%Z.
Proof.
  rewrite dumpConfig_eq.
  destruct (proj2 (resolution_outcome env false s)) as [(f & s' & H)|H];
    destruct (getConfigFilePath env false s) as [t o]; simpl in H; subst o.
  - left. destruct (core_GetMergedConfig env f); simpl; eauto.
  - right. reflexivity.
Qed.

Lemma startup_prestart e : startup_event e = true -> prestart_event e = true.
Proof. destruct e; simpl; intros H; try reflexivity; discriminate H. Qed.

Lemma dump_prestart e : dump_event e = true -> prestart_event e = true.
Proof. destruct e; simpl; congruence. Qed.

(** Resolution either returns a list of files or dies with code 1. *)
Lemma resolves_or_aborts :
  (exists files, resolves env files)
  \/ snd (getConfigFilePath env false (flag_config env)) = Exited 1%Z.
Proof.
  destruct (proj2 (resolution_outcome env false (flag_config env)))
    as [(f & s' & H)|H]; [left; exists f, s'; exact H | right; exact H].
Qed.

(** Every run either reaches a successful [Start], or consists of the
    platform prologue followed by pre-start events and an exit. *)
Lemma run_cases :
  (exists srv, starts env srv)
  \/ (exists t c,
        fst (executeRun env ins)
        = (if on_darwin env then enable_events env else []) ++ t /\
        Forall (fun e => prestart_event e = true) t /\
        count is_arm t = 0 /\ count is_Close t = 0 /\
        snd (executeRun env ins) = Exited c).
Proof.
  rewrite executeRun_eq.
  assert (Hclass : forall t,
    Forall (fun e => prestart_event e = true) t ->
    count is_arm t = 0 /\ count is_Close t = 0).
  { intros t F. split; apply (count_class prestart_event); auto; reject. }
  assert (Hexit : forall t c,
    Forall (fun e => prestart_event e = true) t ->
    executeRun_body env ins (flag_config env) = (t, Exited c) ->
    exists t0 c0,
      fst (if on_darwin env
           then (enable_events env
                   ++ fst (executeRun_body env ins (flag_config env))
                   ++ match snd (executeRun_body env ins (flag_config env))
                      with Done _ _ => disable_events env | _ => [] end,
                 snd (executeRun_body env ins (flag_config env)))
           else executeRun_body env ins (flag_config env))
      = (if on_darwin env then enable_events env else []) ++ t0 /\
      Forall (fun e => prestart_event e = true) t0 /\
      count is_arm t0 = 0 /\ count is_Close t0 = 0 /\
      snd (if on_darwin env
           then (enable_events env
                   ++ fst (executeRun_body env ins (flag_config env))
                   ++ match snd (executeRun_body env ins (flag_config env))
                      with Done _ _ => disable_events env | _ => [] end,
                 snd (executeRun_body env ins (flag_config env)))
           else executeRun_body env ins (flag_config env))
      = Exited c0).
  { intros t c F E. exists t, c. rewrite E.
    destruct (Hclass t F) as [Ha Hc].
    destruct (on_darwin env); cbn [fst snd app]; rewrite ?app_nil_r; auto. }
  destruct (dump env) eqn:Hd.
  - right. pose proof (body_dump env ins (flag_config env) Hd) as B.
    pose proof (dumpConfig_class env (flag_config env)) as C.
    apply (Forall_class_weaken _ _ _ dump_prestart) in C.
    destruct (dumpConfig_outcome (flag_config env)) as [(code & s' & H)|H];
      rewrite H in B; eapply Hexit; try exact B;
      constructor; auto.
  - destruct resolves_or_aborts as [[files R]|A].
    + destruct (startXray_build env files R) as (t & s & C & _ & E).
      apply (Forall_class_weaken _ _ _ startup_prestart) in C.
      destruct (build env files) as [srv|] eqn:Hb.
      * destruct (test env) eqn:Ht.
        -- right. eapply Hexit;
             [|exact (body_test env ins _ _ _ _ Hd Ht E)].
           constructor; [reflexivity|]. apply Forall_app. split; auto; repeat constructor.
        -- destruct (server_Start env srv) eqn:Hs.
           ++ left. exists srv. repeat split; auto. exists files. auto.
           ++ right. eapply Hexit;
                [|exact (body_start_failed env ins _ _ _ _ Hd Ht E Hs)].
              constructor; [reflexivity|]. apply Forall_app. split; auto; repeat constructor.
      * right.
        assert (exists msg,
          startXray env (flag_config env) = (t, Done (inl msg) s))
          as [msg E']
          by (destruct (core_LoadConfig env (getConfigFormat env) files);
              eauto).
        eapply Hexit;
          [|exact (body_build_failed env ins _ _ _ _ Hd E')].
        constructor; [reflexivity|]. apply Forall_app. split; auto; repeat constructor.
    + right. rewrite <- (resolution_verbose env true) in A.
      pose proof (startXray_class env (flag_config env)) as C.
      apply (Forall_class_weaken _ _ _ startup_prestart) in C.
      pose proof (startXray_eq env (flag_config env)) as E.
      destruct (getConfigFilePath env true (flag_config env)) as [t o].
      simpl in A. subst o. rewrite E in C. simpl in C.
      eapply Hexit; [|exact (body_aborted env ins _ _ _ Hd E)].
      constructor; auto.
Qed.

End Prestart.

(* ================================================================== *)
(** ** Shutdown: a signal, or the tray's "Quit" *)
(* ================================================================== *)

Lemma goos_darwin env : GOOS env = "darwin" -> on_darwin env = true.
Proof. unfold on_darwin. intros ->. reflexivity. Qed.

(** The part of a running trace that precedes the wait, counted. *)
Lemma count_prefix p env t0 srv :
  (forall e, startup_event e = true -> p e = false) ->
  Forall (fun e => startup_event e = true) t0 ->
  count p ((if on_darwin env then enable_events env else [])
             ++ Call "printVersion" :: t0 ++ Start srv :: arming)
  = count p (if on_darwin env then enable_events env else [])
    + count p [Call "printVersion"] + count p (Start srv :: arming).
Proof.
  intros Hp F. counts. rewrite (count_class startup_event p t0 Hp F). lia.
Qed.

(** When a termination signal arrives first: [end] is closed once, the
    wait returns once, [Close] runs once, and on darwin the proxy is
    switched off once, in this order. *)
Lemma signal_shutdown env ins srv :
  starts env srv -> first_stop ins = Some Signal ->
  (exists s, snd (executeRun env ins) = Done tt s) /\
  count is_Start (fst (executeRun env ins)) = 1 /\
  count is_Close (fst (executeRun env ins)) = 1 /\
  count is_CloseEnd (fst (executeRun env ins)) = 1 /\
  count is_RecvEnd (fst (executeRun env ins)) = 1 /\
  after_stop (fst (executeRun env ins))
  = [CloseEnd; RecvEnd; Close srv]
      ++ (if on_darwin env then disable_events env else []).
Proof.
  intros St Hi.
  destruct (running_shape env ins srv St) as (t0 & s' & F & Ht & Ho).
  destruct (listeners_spec env ins 1%Z s') as [Lc Ls].
  rewrite Hi in Ls. destruct Ls as (Lo & Lce & Lst & Laf).
  rewrite Ht, Ho, Lo. split; [eauto|].
  assert (P : forall p,
    (forall e, startup_event e = true -> p e = false) ->
    count p ((if on_darwin env then enable_events env else [])
               ++ Call "printVersion" :: t0 ++ Start srv :: arming)
    = count p (if on_darwin env then enable_events env else [])
      + count p [Call "printVersion"] + count p (Start srv :: arming))
    by (intros p Hp; apply count_prefix; auto).
  repeat split.
  - rewrite count_app, P by reject. rewrite count_app.
    rewrite (count_class listener_event is_Start _ ltac:(reject) Lc).
    destruct (on_darwin env); reflexivity.
  - rewrite count_app, P by reject. rewrite count_app.
    rewrite (count_class listener_event is_Close _ ltac:(reject) Lc).
    destruct (on_darwin env); reflexivity.
  - rewrite count_app, P by reject. rewrite count_app, Lce.
    destruct (on_darwin env); reflexivity.
  - rewrite count_app, P by reject. rewrite count_app.
    rewrite (count_class listener_event is_RecvEnd _ ltac:(reject) Lc).
    destruct (on_darwin env); reflexivity.
  - rewrite after_stop_skip.
    + rewrite after_stop_app by exact Lst. rewrite Laf. reflexivity.
    + rewrite P by reject. destruct (on_darwin env); reflexivity.
Qed.

(** When "Quit" is clicked first the process exits inside the click
    handler: nothing at all is performed afterwards. *)
Lemma quit_shutdown env ins srv :
  starts env srv -> first_stop ins = Some ClickQuit ->
  snd (executeRun env ins) = Exited 0%Z /\
  count is_Start (fst (executeRun env ins)) = 1 /\
  count is_Close (fst (executeRun env ins)) = 0 /\
  count is_CloseEnd (fst (executeRun env ins)) = 0 /\
  count is_RecvEnd (fst (executeRun env ins)) = 0 /\
  after_stop (fst (executeRun env ins)) = [].
Proof.
  intros St Hi.
  destruct (running_shape env ins srv St) as (t0 & s' & F & Ht & Ho).
  destruct (listeners_spec env ins 1%Z s') as [Lc Ls].
  rewrite Hi in Ls. destruct Ls as (Lo & Lce & Lst & Laf).
  rewrite Ht, Ho, Lo. split; [reflexivity|].
  assert (P : forall p,
    (forall e, startup_event e = true -> p e = false) ->
    count p ((if on_darwin env then enable_events env else [])
               ++ Call "printVersion" :: t0 ++ Start srv :: arming)
    = count p (if on_darwin env then enable_events env else [])
      + count p [Call "printVersion"] + count p (Start srv :: arming))
    by (intros p Hp; apply count_prefix; auto).
  rewrite app_nil_r.
  repeat split.
  - rewrite count_app, P by reject.
    rewrite (count_class listener_event is_Start _ ltac:(reject) Lc).
    destruct (on_darwin env); reflexivity.
  - rewrite count_app, P by reject.
    rewrite (count_class listener_event is_Close _ ltac:(reject) Lc).
    destruct (on_darwin env); reflexivity.
  - rewrite count_app, P by reject. rewrite Lce.
    destruct (on_darwin env); reflexivity.
  - rewrite count_app, P by reject.
    rewrite (count_class listener_event is_RecvEnd _ ltac:(reject) Lc).
    destruct (on_darwin env); reflexivity.
  - rewrite after_stop_skip; [exact Laf|].
    rewrite P by reject. destruct (on_darwin env); reflexivity.
Qed.

(** Toggle clicks alone never end the wait and never close [end]. *)
Lemma toggles_never_terminate env ins srv :
  starts env srv -> first_stop ins = None ->
  snd (executeRun env ins) = Blocked /\
  count is_CloseEnd (fst (executeRun env ins)) = 0 /\
  count is_Close (fst (executeRun env ins)) = 0.
Proof.
  intros St Hi.
  destruct (running_shape env ins srv St) as (t0 & s' & F & Ht & Ho).
  destruct (listeners_spec env ins 1%Z s') as [Lc Ls].
  rewrite Hi in Ls. destruct Ls as (Lo & Lce & Lst).
  rewrite Ht, Ho, Lo. split; [reflexivity|].
  rewrite app_nil_r. split.
  - rewrite count_app, count_prefix by (auto; reject). rewrite Lce.
    destruct (on_darwin env); reflexivity.
  - rewrite count_app, count_prefix by (auto; reject).
    rewrite (count_class listener_event is_Close _ ltac:(reject) Lc).
    destruct (on_darwin env); reflexivity.
Qed.

(** [Close] is never called on a run whose [Start] failed or was never
    reached. *)
Lemma no_Close_without_Start env ins :
  (forall srv, ~ starts env srv) ->
  count is_Close (fst (executeRun env ins)) = 0.
Proof.
  intros N. destruct (run_cases env ins) as [[srv St]|(t & c & Ht & F & _ & Hc & _)].
  - destruct (N srv St).
  - rewrite Ht, count_app, Hc.
    destruct (on_darwin env); reflexivity.
Qed.

(** The platform block adds proxy commands and log lines only. *)
Lemma count_run p env ins :
  (forall argv, p (Exec argv) = false) ->
  (forall m, p (Log m) = false) ->
  count p (fst (executeRun env ins))
  = count p (fst (executeRun_body env ins (flag_config env))).
Proof.
  intros Hx Hl. rewrite executeRun_eq.
  destruct (on_darwin env); [|reflexivity].
  cbn [fst]. unfold enable_events, disable_events. simpl fst.
  destruct (snd (executeRun_body env ins (flag_config env)));
    counts; rewrite ?Hx, ?Hl; lia.
Qed.


Lemma snd_run env ins :
  snd (executeRun env ins)
  = snd (executeRun_body env ins (flag_config env)).
Proof. rewrite executeRun_eq. destruct (on_darwin env); reflexivity. Qed.

(* ================================================================== *)
(** ** Properties of the lifecycle *)
(* ================================================================== *)

(** C2 (the run on which the code departs from it).  When [Start] has
    succeeded and the tray's "Quit" is clicked before any termination
    signal, the process exits with code 0 from inside the click handler:
    [Start] was called once and [Close] is not called at all. *)
Theorem tray_quit_skips_Close (env : Env) (ins : list input) (srv : Server) :
  starts env srv ->
  first_stop ins = Some ClickQuit ->
  snd (executeRun env ins) = Exited 0%Z /\
  count is_Start (fst (executeRun env ins)) = 1 /\
  count is_Close (fst (executeRun env ins)) = 0.
Proof.
  intros St Hi.
  destruct (quit_shutdown env ins srv St Hi) as (Ho & Hs & Hc & _).
  auto.
Qed.

Lemma tray_quit_skips_Close_witness :
  snd (executeRun (plain "darwin" false false true true)
         [ClickToggle; ClickQuit]) = Exited 0%Z /\
  count is_Start (fst (executeRun (plain "darwin" false false true true)
                         [ClickToggle; ClickQuit])) = 1 /\
  count is_Close (fst (executeRun (plain "darwin" false false true true)
                         [ClickToggle; ClickQuit])) = 0.
Proof.
  apply (tray_quit_skips_Close (plain "darwin" false false true true)
           [ClickToggle; ClickQuit] 7).
  - unfold starts. repeat split.
    exists ["/etc/xray/a.json"]. split; [|reflexivity].
    exists ["/etc/xray/a.json"]. reflexivity.
  - reflexivity.
Defined.

(** C3 (the run on which the code departs from it).  On darwin, when
    [Start] has succeeded and "Quit" is clicked before any termination
    signal, nothing is performed after the click is received: the
    "disable system proxy" command is not run at shutdown. *)
Theorem tray_quit_skips_proxy_disable
    (env : Env) (ins : list input) (srv : Server) :
  GOOS env = "darwin" ->
  starts env srv ->
  first_stop ins = Some ClickQuit ->
  snd (executeRun env ins) = Exited 0%Z /\
  after_stop (fst (executeRun env ins)) = [] /\
  count is_disable (after_stop (fst (executeRun env ins))) = 0.
Proof.
  intros _ St Hi.
  destruct (quit_shutdown env ins srv St Hi) as (Ho & _ & _ & _ & _ & Ha).
  rewrite Ha. auto.
Qed.

Lemma tray_quit_skips_proxy_disable_witness :
  snd (executeRun (plain "darwin" false false true true) [ClickQuit])
  = Exited 0%Z /\
  after_stop (fst (executeRun (plain "darwin" false false true true)
                     [ClickQuit])) = [] /\
  count is_disable
    (after_stop (fst (executeRun (plain "darwin" false false true true)
                        [ClickQuit]))) = 0.
Proof.
  apply (tray_quit_skips_proxy_disable
           (plain "darwin" false false true true) [ClickQuit] 7).
  - reflexivity.
  - unfold starts. repeat split.
    exists ["/etc/xray/a.json"]. split; [|reflexivity].
    exists ["/etc/xray/a.json"]. reflexivity.
  - reflexivity.
Defined.

(** On that run the proxy was switched on once and is never switched
    off: it is left enabled when the process has exited. *)
Example quit_leaves_proxy_enabled :
  let t := fst (executeRun (plain "darwin" false false true true)
                  [ClickQuit]) in
  count is_enable t = 1 /\ count is_disable t = 0.
Proof. split; reflexivity. Qed.

(** The sibling path: on darwin a termination signal switches the proxy
    off exactly once during shutdown, whatever the toggles before. *)
Lemma signal_shutdown_disables_once env ins srv :
  GOOS env = "darwin" ->
  starts env srv -> first_stop ins = Some Signal ->
  count is_disable (after_stop (fst (executeRun env ins))) = 1.
Proof.
  intros Hg St Hi.
  destruct (signal_shutdown env ins srv St Hi) as (_ & _ & _ & _ & _ & Ha).
  rewrite Ha, (goos_darwin env Hg). reflexivity.
Qed.

(** C5 (the run on which the code departs from it).  When [Start] has
    succeeded and "Quit" is clicked before any termination signal, the
    channel [end] is never closed and the wait of the main flow never
    returns: the click handler ends the process itself, with code 0. *)
Theorem tray_quit_does_not_raise_end
    (env : Env) (ins : list input) (srv : Server) :
  starts env srv ->
  first_stop ins = Some ClickQuit ->
  snd (executeRun env ins) = Exited 0%Z /\
  count is_CloseEnd (fst (executeRun env ins)) = 0 /\
  count is_RecvEnd (fst (executeRun env ins)) = 0.
Proof.
  intros St Hi.
  destruct (quit_shutdown env ins srv St Hi) as (Ho & _ & _ & Hc & Hr & _).
  auto.
Qed.

Lemma tray_quit_does_not_raise_end_witness :
  snd (executeRun (plain "linux" false false true true) [ClickQuit; Signal])
  = Exited 0%Z /\
  count is_CloseEnd (fst (executeRun (plain "linux" false false true true)
                            [ClickQuit; Signal])) = 0 /\
  count is_RecvEnd (fst (executeRun (plain "linux" false false true true)
                           [ClickQuit; Signal])) = 0.
Proof.
  apply (tray_quit_does_not_raise_end
           (plain "linux" false false true true) [ClickQuit; Signal] 7).
  - unfold starts. repeat split.
    exists ["/etc/xray/a.json"]. split; [|reflexivity].
    exists ["/etc/xray/a.json"]. reflexivity.
  - reflexivity.
Defined.

Lemma resolves_true env files :
  resolves env files ->
  exists t s, getConfigFilePath env true (flag_config env) = (t, Done files s).
Proof.
  intros [s H]. rewrite <- (resolution_verbose env true) in H.
  destruct (getConfigFilePath env true (flag_config env)) as [t o].
  simpl in H. subst o. eauto.
Qed.

Lemma resolves_false env files :
  resolves env files ->
  exists t s,
    getConfigFilePath env false (flag_config env) = (t, Done files s).
Proof.
  intros [s H].
  destruct (getConfigFilePath env false (flag_config env)) as [t o].
  simpl in H. subst o. eauto.
Qed.

(** Dump mode: the trace and the exit code, given what resolution and the
    merge return. *)
Lemma dump_run env ins files :
  dump env = true -> resolves env files ->
  exists t,
    Forall (fun e => quiet e = true) t /\
    executeRun_body env ins (flag_config env)
    = match core_GetMergedConfig env files with
      | None =>
          (Call "clog.ReplaceWithSeverityLogger"
             :: t ++ [GetMergedConfig files; Log "merge error";
                      Call "time.Sleep"],
           Exited 23%Z)
      | Some config =>
          (Call "clog.ReplaceWithSeverityLogger"
             :: t ++ [GetMergedConfig files; Log config],
           Exited 0%Z)
      end.
Proof.
  intros Hd R. destruct (resolves_false env files R) as (t & s & E).
  exists t. split.
  - pose proof (proj1 (resolution_outcome env false (flag_config env))) as Q.
    rewrite E in Q. exact Q.
  - rewrite (body_dump env ins _ Hd), dumpConfig_eq, E.
    destruct (core_GetMergedConfig env files); reflexivity.
Qed.

(** A failure of the directory scan: exit code 1, [Start] not called. *)
Lemma scan_abort_run env ins :
  forall v c,
    snd (getConfigFilePath env v (flag_config env)) = Exited c ->
    snd (executeRun env ins) = Exited 1%Z /\
    count is_Start (fst (executeRun env ins)) = 0.
Proof.
  intros v c H. rewrite resolution_verbose in H.
  destruct (proj2 (resolution_outcome env false (flag_config env)))
    as [(f & s' & H')|H']; [congruence|].
  rewrite snd_run, count_run by reflexivity.
  destruct (dump env) eqn:Hd.
  + rewrite (body_dump env ins _ Hd).
    pose proof (dumpConfig_class env (flag_config env)) as C.
    rewrite dumpConfig_eq in *.
    destruct (getConfigFilePath env false (flag_config env)) as [t o].
    simpl in H'. subst o. simpl in *. split; [reflexivity|].
    counts. rewrite (count_class dump_event is_Start t ltac:(reject) C).
    reflexivity.
  + rewrite <- (resolution_verbose env true) in H'.
    pose proof (startXray_class env (flag_config env)) as C.
    pose proof (startXray_eq env (flag_config env)) as E.
    destruct (getConfigFilePath env true (flag_config env)) as [t o].
    simpl in H'. subst o. rewrite E in C.
    rewrite (body_aborted env ins _ _ _ Hd E). simpl in *.
    split; [reflexivity|].
    counts. rewrite (count_class startup_event is_Start t ltac:(reject) C).
    reflexivity.
Qed.

(** C1 (as amended).  A failure of the merge in dump mode, and a failure
    of the server build (in test and in run mode), make the process exit
    with code 23; a failure of the directory scan ends the process in
    [log.Fatalln], with exit code 1, in every mode; in all three cases
    [Start] is not called.  A failure of [Start] itself makes the process
    exit with code -1, which is neither 0 nor 23. *)
Theorem exit_codes (env : Env) (ins : list input) :
  (forall v c,
      snd (getConfigFilePath env v (flag_config env)) = Exited c ->
      snd (executeRun env ins) = Exited 1%Z /\
      count is_Start (fst (executeRun env ins)) = 0)
  /\ (forall files,
         dump env = true -> resolves env files ->
         core_GetMergedConfig env files = None ->
         snd (executeRun env ins) = Exited 23%Z /\
         count is_Start (fst (executeRun env ins)) = 0)
  /\ (forall files,
         dump env = false -> resolves env files ->
         build env files = None ->
         snd (executeRun env ins) = Exited 23%Z /\
         count is_Start (fst (executeRun env ins)) = 0)
  /\ (forall files srv,
         dump env = false -> test env = false -> resolves env files ->
         build env files = Some srv -> server_Start env srv = false ->
         snd (executeRun env ins) = Exited (-1)%Z /\
         (-1 <> 0)%Z /\ (-1 <> 23)%Z).
Proof.
  split; [|split; [|split]].
  - apply scan_abort_run.
  - intros files Hd R Hm.
    destruct (dump_run env ins files Hd R) as (t & Q & E).
    rewrite Hm in E. rewrite snd_run, count_run, E by reflexivity.
    split; [reflexivity|]. cbn [fst]. counts.
    rewrite (count_class quiet is_Start t ltac:(reject) Q). reflexivity.
  - intros files Hd R Hb.
    destruct (startXray_build env files R) as (t & s & C & _ & E).
    rewrite Hb in E.
    assert (exists msg,
      startXray env (flag_config env) = (t, Done (inl msg) s))
      as [msg E']
      by (destruct (core_LoadConfig env (getConfigFormat env) files);
          eauto).
    rewrite snd_run, count_run by reflexivity.
    rewrite (body_build_failed env ins _ _ _ _ Hd E').
    split; [reflexivity|]. cbn [fst]. counts.
    rewrite (count_class startup_event is_Start t ltac:(reject) C).
    reflexivity.
  - intros files srv Hd Ht R Hb Hs.
    destruct (startXray_build env files R) as (t & s & C & _ & E).
    rewrite Hb in E.
    rewrite snd_run, (body_start_failed env ins _ _ _ _ Hd Ht E Hs).
    repeat split; discriminate.
Qed.

Lemma exit_codes_witness :
  (snd (executeRun (unreadable_confdir true) []) = Exited 1%Z /\
   count is_Start (fst (executeRun (unreadable_confdir true) [])) = 0)
  /\ (snd (executeRun (plain "linux" false false false true) [])
      = Exited 23%Z /\
      count is_Start
        (fst (executeRun (plain "linux" false false false true) [])) = 0)
  /\ (snd (executeRun (plain "linux" false false true false) [])
      = Exited (-1)%Z /\ (-1 <> 0)%Z /\ (-1 <> 23)%Z).
Proof.
  split; [|split].
  - destruct (exit_codes (unreadable_confdir true) []) as (T & _).
    apply (T false 1%Z). reflexivity.
  - destruct (exit_codes (plain "linux" false false false true) [])
      as (_ & _ & T & _).
    apply (T ["/etc/xray/a.json"]).
    + reflexivity.
    + exists ["/etc/xray/a.json"]. reflexivity.
    + reflexivity.
  - destruct (exit_codes (plain "linux" false false true false) [])
      as (_ & _ & _ & T).
    apply (T ["/etc/xray/a.json"] 7).
    + reflexivity.
    + reflexivity.
    + exists ["/etc/xray/a.json"]. reflexivity.
    + reflexivity.
    + reflexivity.
Defined.

(** C1 (as stated) fails: with a [-confdir] that exists but cannot be
    listed, the process ends before [Start] is called, and its exit code
    is 1, not 23 -- in run mode and in dump mode alike. *)
Lemma scan_failure_exit_code_counterexample :
  snd (executeRun (unreadable_confdir false) []) = Exited 1%Z /\
  count is_Start (fst (executeRun (unreadable_confdir false) [])) = 0 /\
  snd (executeRun (unreadable_confdir true) []) = Exited 1%Z /\
  count is_Start (fst (executeRun (unreadable_confdir true) [])) = 0 /\
  Exited 1%Z <> @Exited unit 23%Z.
Proof. repeat split. discriminate. Qed.

(** C4 (as amended).  On darwin the proxy is switched on as the very
    first action of [executeRun], before the mode is looked at, hence on
    every run; goroutines (the listeners, the tray) are launched only on
    a run whose [Start] has succeeded, after that [Start], and the one
    enabling of the proxy precedes them. *)
Theorem proxy_enabled_at_startup (env : Env) (ins : list input) :
  GOOS env = "darwin" ->
  (exists r, fst (executeRun env ins) = enable_events env ++ r) /\
  count is_enable (enable_events env) = 1 /\
  (0 < count is_arm (fst (executeRun env ins)) ->
   exists srv,
     starts env srv /\
     In (Start srv) (before is_arm (fst (executeRun env ins))) /\
     count is_enable (before is_arm (fst (executeRun env ins))) = 1).
Proof.
  intros Hg. pose proof (goos_darwin env Hg) as Hdw.
  split; [|split].
  - rewrite executeRun_eq, Hdw. cbn [fst]. eauto.
  - reflexivity.
  - intros Harm.
    destruct (run_cases env ins)
      as [[srv St]|(t & c & Ht & F & Ha & _ & _)].
    + exists srv. split; [exact St|].
      destruct (running_shape env ins srv St) as (t0 & s' & C & Ht & _).
      rewrite Hdw in Ht.
      assert (B : before is_arm (fst (executeRun env ins))
                  = enable_events env
                      ++ Call "printVersion"
                      :: t0 ++ [Start srv; Call "runtime.GC";
                                Call "debug.FreeOSMemory";
                                Call "runtime.UnlockOSThread"]).
      { rewrite Ht, <- app_assoc.
        rewrite before_app by reflexivity.
        cbn [app before is_arm]. rewrite <- app_assoc.
        rewrite before_app
          by (apply (count_class startup_event); [reject | exact C]).
        reflexivity. }
      rewrite B. split.
      * apply in_or_app. right. right. apply in_or_app. right.
        left. reflexivity.
      * counts.
        rewrite (count_class startup_event is_enable t0 ltac:(reject) C).
        reflexivity.
    + exfalso. rewrite Ht, Hdw, count_app, Ha in Harm.
      unfold enable_events in Harm. simpl in Harm. lia.
Qed.

Lemma proxy_enabled_at_startup_witness :
  (exists r,
      fst (executeRun (plain "darwin" true false true true) [])
      = enable_events (plain "darwin" true false true true) ++ r) /\
  count is_enable (enable_events (plain "darwin" true false true true)) = 1 /\
  (0 < count is_arm (fst (executeRun (plain "darwin" true false true true) []))
   -> exists srv,
     starts (plain "darwin" true false true true) srv /\
     In (Start srv)
        (before is_arm
           (fst (executeRun (plain "darwin" true false true true) []))) /\
     count is_enable
       (before is_arm
          (fst (executeRun (plain "darwin" true false true true) []))) = 1).
Proof.
  apply (proxy_enabled_at_startup (plain "darwin" true false true true) []).
  reflexivity.
Defined.

(** C4 (as stated) fails: on darwin the proxy is switched on in dump mode,
    in test mode, and on a run whose build fails, none of which calls
    [Start]. *)
Lemma enable_before_start_counterexample :
  (count is_enable (fst (executeRun (plain "darwin" true false true true) []))
   = 1 /\
   count is_Start (fst (executeRun (plain "darwin" true false true true) []))
   = 0) /\
  (count is_enable (fst (executeRun (plain "darwin" false true true true) []))
   = 1 /\
   count is_Start (fst (executeRun (plain "darwin" false true true true) []))
   = 0) /\
  (count is_enable (fst (executeRun (plain "darwin" false false false true) []))
   = 1 /\
   count is_Start (fst (executeRun (plain "darwin" false false false true) []))
   = 0).
Proof. repeat split. Qed.



(* ================================================================== *)
(** ** The whole of [executeRun_body], laid out *)
(* ================================================================== *)

Lemma body_eq env ins :
  executeRun_body env ins (flag_config env) = body_layout env ins.
Proof.
  unfold body_layout.
  destruct (dump env) eqn:Hd.
  - rewrite (body_dump env ins _ Hd), dumpConfig_eq.
    destruct (getConfigFilePath env false (flag_config env))
      as [tr [files s|c|]]; try reflexivity.
    destruct (core_GetMergedConfig env files); reflexivity.
  - pose proof (startXray_eq env (flag_config env)) as E.
    destruct (getConfigFilePath env true (flag_config env))
      as [tr [files s|c|]].
    + destruct (core_LoadConfig env (getConfigFormat env) files) as [c|].
      * destruct (core_New env c) as [srv|].
        -- destruct (test env) eqn:Ht.
           ++ rewrite (body_test env ins _ _ _ _ Hd Ht E).
              rewrite <- app_assoc. reflexivity.
           ++ destruct (server_Start env srv) eqn:Hs.
              ** rewrite (body_running env ins _ _ _ _ Hd Ht E Hs).
                 rewrite <- !app_assoc. reflexivity.
              ** rewrite (body_start_failed env ins _ _ _ _ Hd Ht E Hs).
                 rewrite <- app_assoc. reflexivity.
        -- rewrite (body_build_failed env ins _ _ _ _ Hd E).
           rewrite <- app_assoc. reflexivity.
      * rewrite (body_build_failed env ins _ _ _ _ Hd E).
        rewrite <- app_assoc. reflexivity.
    + rewrite (body_aborted env ins _ _ _ Hd E). reflexivity.
    + unfold executeRun_body, bind, emit, ret. rewrite Hd, E. reflexivity.
Qed.

(* ================================================================== *)
(** ** More on config resolution *)
(* ================================================================== *)

Section ResolutionMore.

Variable env : Env.

Ltac resolution_open :=
  unfold getConfigFilePath, bind, when, ret, emit, get_configFiles.

(** The result when a directory is scanned and listed. *)
Lemma resolution_scanned v d names s :
  scan_target env = Some d ->
  os_ReadDir env d = Some names ->
  s ++ scanned env d names <> [] ->
  snd (getConfigFilePath env v s)
  = Done (s ++ scanned env d names) (s ++ scanned env d names) /\
  filter is_ReadDir (fst (getConfigFilePath env v s)) = [ReadDir d].
Proof.
  unfold scan_target. intros Ht Hl Hne.
  rewrite (surjective_pairing (getConfigFilePath env v s)).
  resolution_open.
  destruct (dirExists env (configDir env));
    [|destruct (dirExists env (platform_GetConfDirPath env));
      [|discriminate]];
    injection Ht as <-; destruct v; cbn beta iota;
    rewrite readConfDir_eq, Hl; cbn beta iota;
    (destruct (s ++ scanned env _ names) eqn:E; [contradiction|]);
    split; reflexivity.
Qed.

(** With no explicit file and nothing scanned, the fallbacks decide. *)
Lemma resolution_fallthrough v :
  flag_config env = [] -> nothing_scanned env ->
  snd (getConfigFilePath env v (flag_config env)) = Done (fallback env) [].
Proof.
  intros Hf Hn. rewrite resolution_verbose, Hf.
  unfold nothing_scanned, scan_target in Hn. unfold fallback.
  resolution_open.
  destruct (dirExists env (configDir env));
    [|destruct (dirExists env (platform_GetConfDirPath env))];
    try (destruct Hn as (names & Hl & Hs);
         rewrite readConfDir_eq, Hl; cbn [app]; rewrite Hs);
    cbn -[path_Join fileExists filepath_Abs];
    repeat (break_match; cbn [fst snd app]);
    reflexivity.
Qed.

End ResolutionMore.

(* ================================================================== *)
(** ** Further properties of config resolution *)
(* ================================================================== *)

(** X1.  When the directory of [-confdir] exists and can be listed, it is
    the only directory listed (the one of the environment is not looked
    at), and resolution returns the explicit files followed by its
    matching entries, provided there is at least one file in all. *)
Theorem confdir_flag_shadows_environment
    (env : Env) (verbose : bool) (names : list string) :
  dirExists env (configDir env) = true ->
  os_ReadDir env (configDir env) = Some names ->
  flag_config env ++ scanned env (configDir env) names <> [] ->
  snd (getConfigFilePath env verbose (flag_config env))
  = Done (flag_config env ++ scanned env (configDir env) names)
         (flag_config env ++ scanned env (configDir env) names) /\
  filter is_ReadDir (fst (getConfigFilePath env verbose (flag_config env)))
  = [ReadDir (configDir env)].
Proof.
  intros Hd Hl Hne. apply resolution_scanned; auto.
  unfold scan_target. rewrite Hd. reflexivity.
Qed.

Lemma confdir_flag_shadows_environment_witness :
  snd (getConfigFilePath two_confdirs true ["a.json"])
  = Done ["a.json"; "/conf/x.toml"] ["a.json"; "/conf/x.toml"] /\
  filter is_ReadDir (fst (getConfigFilePath two_confdirs true ["a.json"]))
  = [ReadDir "/conf"].
Proof.
  apply (confdir_flag_shadows_environment two_confdirs true
           ["x.toml"; "README"]).
  - reflexivity.
  - reflexivity.
  - discriminate.
Defined.

(** X2.  A [-confdir] that is not an existing directory (missing, a
    regular file, or not stat-able) is not an error: the directory
    declared by the environment, when it exists, is scanned in its
    place. *)
Theorem unusable_confdir_falls_to_environment
    (env : Env) (verbose : bool) (names : list string) :
  dirExists env (configDir env) = false ->
  dirExists env (platform_GetConfDirPath env) = true ->
  os_ReadDir env (platform_GetConfDirPath env) = Some names ->
  flag_config env ++ scanned env (platform_GetConfDirPath env) names <> [] ->
  snd (getConfigFilePath env verbose (flag_config env))
  = Done (flag_config env ++ scanned env (platform_GetConfDirPath env) names)
         (flag_config env ++ scanned env (platform_GetConfDirPath env) names)
  /\ filter is_ReadDir (fst (getConfigFilePath env verbose (flag_config env)))
     = [ReadDir (platform_GetConfDirPath env)].
Proof.
  intros Hd He Hl Hne. apply resolution_scanned; auto.
  unfold scan_target. rewrite Hd, He. reflexivity.
Qed.

Lemma unusable_confdir_falls_to_environment_witness :
  snd (getConfigFilePath confdir_is_a_file false [])
  = Done ["/etc/xray/confs/b.json"] ["/etc/xray/confs/b.json"] /\
  filter is_ReadDir (fst (getConfigFilePath confdir_is_a_file false []))
  = [ReadDir "/etc/xray/confs"].
Proof.
  apply (unusable_confdir_falls_to_environment confdir_is_a_file false
           ["b.json"]).
  - reflexivity.
  - reflexivity.
  - reflexivity.
  - discriminate.
Defined.

(** X3.  With no explicit file and nothing added by a scan (no directory,
    or a listed directory without a matching entry), an existing
    [config.json] in the working directory is the result, whatever the
    environment file and the home directory are. *)
Theorem cwd_config_precedes_environment
    (env : Env) (verbose : bool) (wd : string) :
  flag_config env = [] ->
  nothing_scanned env ->
  os_Getwd env = Some wd ->
  fileExists env (path_Join [wd; "config.json"]) = true ->
  snd (getConfigFilePath env verbose (flag_config env))
  = Done [path_Join [wd; "config.json"]] [].
Proof.
  intros Hf Hn Hw Hx. rewrite (resolution_fallthrough env verbose Hf Hn).
  unfold fallback. rewrite Hw, Hx. reflexivity.
Qed.

Lemma cwd_config_precedes_environment_witness :
  snd (getConfigFilePath (with_files true true (Some "/home/u")) true [])
  = Done ["/srv/config.json"] [].
Proof.
  apply (cwd_config_precedes_environment
           (with_files true true (Some "/home/u")) true "/srv").
  - reflexivity.
  - exact I.
  - reflexivity.
  - reflexivity.
Defined.

(** X4.  With no explicit file, nothing added by a scan and no
    [config.json] in the working directory, an existing file at the
    location given by the environment is the result, whatever the home
    directory is (it is not even needed). *)
Theorem environment_file_precedes_home (env : Env) (verbose : bool) :
  flag_config env = [] ->
  nothing_scanned env ->
  (forall wd, os_Getwd env = Some wd ->
              fileExists env (path_Join [wd; "config.json"]) = false) ->
  fileExists env (platform_GetConfigurationPath env) = true ->
  snd (getConfigFilePath env verbose (flag_config env))
  = Done [platform_GetConfigurationPath env] [].
Proof.
  intros Hf Hn Hw Hx. rewrite (resolution_fallthrough env verbose Hf Hn).
  unfold fallback. rewrite Hx.
  destruct (os_Getwd env) as [wd|]; [|reflexivity].
  rewrite (Hw wd eq_refl). reflexivity.
Qed.

Lemma environment_file_precedes_home_witness :
  snd (getConfigFilePath (with_files false true None) true [])
  = Done ["/usr/local/bin/config.json"] [].
Proof.
  apply (environment_file_precedes_home (with_files false true None) true).
  - reflexivity.
  - exact I.
  - intros wd H. injection H as <-. reflexivity.
  - reflexivity.
Defined.

Section ResolutionEdges.

Variable env : Env.

Ltac resolution_by_cases :=
  unfold getConfigFilePath, bind, when, ret, emit, get_configFiles;
  destruct (dirExists env (configDir env)) eqn:Hflagdir;
    [|destruct (dirExists env (platform_GetConfDirPath env)) eqn:Henvdir];
  cbn beta iota; rewrite ?readConfDir_eq;
  repeat (break_match; cbn [fst snd app]).

Lemma Abs_fails getwd p : filepath_Abs getwd p = None -> getwd = None.
Proof.
  unfold filepath_Abs. destruct (is_rooted p); [discriminate|].
  destruct getwd; [discriminate|reflexivity].
Qed.

Lemma empty_result_cases v s0 s :
  snd (getConfigFilePath env v s0) = Done [] s ->
  os_UserHomeDir env = None \/ os_Getwd env = None.
Proof.
  rewrite resolution_verbose.
  resolution_by_cases; intros H;
    try discriminate H;
    try (left; reflexivity);
    try (right; eapply Abs_fails; eassumption);
    try (injection H as E _;
         match goal with
         | L : Nat.ltb 0 _ = true |- _ => rewrite E in L; discriminate L
         end).
Qed.

Lemma scan_failure_cases v s0 :
  snd (getConfigFilePath env v s0) = Exited 1%Z <->
  exists d, scan_target env = Some d /\ os_ReadDir env d = None.
Proof.
  rewrite resolution_verbose. unfold scan_target. split.
  - resolution_by_cases; intros H; try discriminate H; eauto.
  - intros (d & Ht & Hl). revert Ht Hl.
    resolution_by_cases; intros Ht Hl;
      try discriminate Ht; try reflexivity;
      injection Ht as <-; congruence.
Qed.

Lemma quiet_resolution_lines s0 m :
  In (Log m) (fst (getConfigFilePath env false s0)) ->
  In m ["os.ReadDir error"; "Error getting home directory:";
        "Error getting absolute path:"].
Proof.
  resolution_by_cases; intros H; simpl in H;
    repeat (destruct H as [H|H]); try discriminate H; try contradiction;
    injection H as <-; simpl; tauto.
Qed.

End ResolutionEdges.

(** X5.  Resolution returns the empty list only when the home directory
    cannot be resolved, or (for a relative home directory) the working
    directory cannot: every other path through it yields a file. *)
Theorem empty_result_means_unresolved
    (env : Env) (verbose : bool) (s : Arg) :
  snd (getConfigFilePath env verbose (flag_config env)) = Done [] s ->
  os_UserHomeDir env = None \/ os_Getwd env = None.
Proof. apply empty_result_cases. Qed.

Lemma empty_result_means_unresolved_witness :
  os_UserHomeDir (bare None) = None \/ os_Getwd (bare None) = None.
Proof.
  apply (empty_result_means_unresolved (bare None) true []).
  reflexivity.
Defined.

Lemma listeners_exit_code env st ins s c :
  snd (listeners env st ins s) = Exited c -> c = 0%Z.
Proof.
  intros H. destruct (listeners_spec env ins st s) as [_ L].
  destruct (first_stop ins) as [[| |]|];
    [destruct L as (L & _) | destruct L as (L & _) | contradiction
    | destruct L as (L & _)];
    rewrite L in H; congruence.
Qed.

(** X6.  The process exits with code 1 exactly when the directory it
    scans (the one of [-confdir] if it exists, else the one of the
    environment if it exists) cannot be listed; explicit files do not
    prevent it, and then nothing is merged, built or started. *)
Theorem exit_code_1_iff_unreadable_confdir (env : Env) (ins : list input) :
  (snd (executeRun env ins) = Exited 1%Z <->
   exists d, scan_target env = Some d /\ os_ReadDir env d = None)
  /\ ((exists d, scan_target env = Some d /\ os_ReadDir env d = None) ->
      count is_merge (fst (executeRun env ins)) = 0 /\
      count is_build (fst (executeRun env ins)) = 0 /\
      count is_Start (fst (executeRun env ins)) = 0).
Proof.
  split.
  - split.
    + intros H. rewrite snd_run, body_eq in H. unfold body_layout in H.
      destruct (dump env).
      * apply (scan_failure_cases env false (flag_config env)).
        destruct (getConfigFilePath env false (flag_config env))
          as [tr [files s|c|]]; simpl in *;
          [destruct (core_GetMergedConfig env files); discriminate H
          | injection H as ->; reflexivity | discriminate H].
      * apply (scan_failure_cases env true (flag_config env)).
        destruct (getConfigFilePath env true (flag_config env))
          as [tr [files s|c|]]; simpl in *;
          [|injection H as ->; reflexivity|discriminate H].
        destruct (core_LoadConfig env (getConfigFormat env) files) as [c|];
          [|discriminate H].
        destruct (core_New env c) as [srv|]; [|discriminate H].
        destruct (test env); [discriminate H|].
        destruct (server_Start env srv); [|discriminate H].
        simpl in H. apply listeners_exit_code in H. discriminate H.
    + intros U.
      apply (scan_failure_cases env false (flag_config env)) in U.
      exact (proj1 (scan_abort_run env ins false 1%Z U)).
  - intros U.
    assert (Hf := proj2 (scan_failure_cases env false (flag_config env)) U).
    assert (Ht := proj2 (scan_failure_cases env true (flag_config env)) U).
    assert (C : forall p,
      (forall e, quiet e = true -> p e = false) ->
      (forall n, p (Call n) = false) ->
      (forall argv, p (Exec argv) = false) ->
      count p (fst (executeRun env ins)) = 0).
    { intros p Hq Hc Hx.
      rewrite count_run; [|exact Hx|intros m; apply Hq; reflexivity].
      rewrite body_eq. unfold body_layout.
      destruct (dump env).
      - pose proof (resolution_quiet env p false (flag_config env) Hq) as Q.
        destruct (getConfigFilePath env false (flag_config env)) as [tr o].
        simpl in Hf, Q. subst o. cbn [fst]. counts. rewrite Hc, Q.
        reflexivity.
      - pose proof (resolution_quiet env p true (flag_config env) Hq) as Q.
        destruct (getConfigFilePath env true (flag_config env)) as [tr o].
        simpl in Ht, Q. subst o. cbn [fst]. counts. rewrite Hc, Q.
        reflexivity. }
    repeat split; apply C; try reflexivity; reject.
Qed.

Lemma exit_code_1_iff_unreadable_confdir_witness :
  snd (executeRun (unreadable_confdir false) [Signal]) = Exited 1%Z /\
  count is_build (fst (executeRun (unreadable_confdir false) [Signal])) = 0.
Proof.
  destruct (exit_code_1_iff_unreadable_confdir
              (unreadable_confdir false) [Signal]) as ([_ T] & C).
  assert (U : exists d,
    scan_target (unreadable_confdir false) = Some d /\
    os_ReadDir (unreadable_confdir false) d = None)
    by (exists "/conf"; split; reflexivity).
  split; [exact (T U) | exact (proj1 (proj2 (C U)))].
Defined.

(** X7.  In dump mode, off darwin, the only lines printed are the merged
    config itself, the merge error, or an error of resolution: no
    informational line is mixed with the dump. *)
Theorem dump_prints_config_or_error
    (env : Env) (ins : list input) (m : string) :
  dump env = true -> on_darwin env = false ->
  In (Log m) (fst (executeRun env ins)) ->
  (exists files, resolves env files /\
                 core_GetMergedConfig env files = Some m)
  \/ In m ["merge error"; "os.ReadDir error";
           "Error getting home directory:"; "Error getting absolute path:"].
Proof.
  intros Hd Hw H. rewrite executeRun_eq, Hw, body_eq in H.
  unfold body_layout in H. rewrite Hd in H.
  pose proof (quiet_resolution_lines env (flag_config env) m) as Q.
  destruct (getConfigFilePath env false (flag_config env))
    as [tr [files s|c|]] eqn:E; cbn [fst] in Q.
  - destruct (core_GetMergedConfig env files) as [cfg|] eqn:M;
      cbn [fst] in H; destruct H as [H|H]; try discriminate H;
      apply in_app_or in H as [H|H];
      try (right; simpl in *; specialize (Q H); tauto);
      simpl in H; repeat (destruct H as [H|H]); try discriminate H;
      try contradiction; injection H as <-.
    + left. exists files. split; [|exact M]. exists s. rewrite E. reflexivity.
    + right. simpl. tauto.
  - cbn [fst] in H. destruct H as [H|H]; [discriminate H|].
    right. simpl in *. specialize (Q H). tauto.
  - cbn [fst] in H. destruct H as [H|H]; [discriminate H|].
    right. simpl in *. specialize (Q H). tauto.
Qed.

Lemma dump_prints_config_or_error_witness :
  (exists files, resolves (plain "linux" true false true true) files /\
                 core_GetMergedConfig (plain "linux" true false true true)
                   files = Some "{}")
  \/ In "{}" ["merge error"; "os.ReadDir error";
              "Error getting home directory:";
              "Error getting absolute path:"].
Proof.
  apply (dump_prints_config_or_error (plain "linux" true false true true) []).
  - reflexivity.
  - reflexivity.
  - simpl. auto.
Defined.

(* ================================================================== *)
(** ** Further properties of the tray loop *)
(* ================================================================== *)

Section Tray.

Variable env : Env.

(** What the loop keeps true, from [sysProxyState] [st] on. *)
Lemma listeners_lockstep ins : forall st s,
  let t := fst (listeners env st ins s) in
  count is_disable t = count (is_icon false) t /\
  count is_disable t = count (is_label "Enable") t /\
  count is_enable t = count (is_icon true) t /\
  count is_enable t = count (is_label "Disable") t /\
  (if Z.eqb st 1
   then count is_enable t <= count is_disable t <= count is_enable t + 1
   else count is_disable t <= count is_enable t <= count is_disable t + 1).
Proof.
  induction ins as [|i ins IH]; intros st s.
  - simpl. destruct (Z.eqb st 1); repeat split; unfold count; simpl; lia.
  - destruct i; simpl.
    + destruct (Z.eqb st 1); repeat split; unfold count; simpl; lia.
    + destruct (Z.eqb st 1); repeat split; unfold count; simpl; lia.
    + unfold background. destruct (Z.eqb st 1) eqn:E.
      * specialize (IH 0%Z s). simpl in IH.
        unfold disableSysProxy; unfold bind, emit, ret. simpl.
        destruct (listeners env 0 ins s) as [t o]. simpl in *.
        unfold count in *. simpl. lia.
      * specialize (IH 1%Z s). simpl in IH.
        unfold enableSysProxy; unfold bind, emit, ret. simpl.
        destruct (listeners env 1 ins s) as [t o]. simpl in *.
        unfold count in *. simpl. lia.
Qed.

(** The commands the loop runs are those of the flags' device and port. *)
Lemma listeners_commands ins : forall st s argv,
  In (Exec argv) (fst (listeners env st ins s)) ->
  argv = set_target_cmd env \/ argv = set_state_cmd env "on"
  \/ argv = set_state_cmd env "off".
Proof.
  induction ins as [|i ins IH]; intros st s argv H.
  - destruct H.
  - destruct i; simpl in H.
    + repeat (destruct H as [H|H]); try discriminate H. destruct H.
    + repeat (destruct H as [H|H]); try discriminate H. destruct H.
    + unfold background in H. destruct (Z.eqb st 1).
      * specialize (IH 0%Z s argv). revert H.
        unfold disableSysProxy; unfold bind, emit, ret. simpl.
        destruct (listeners env 0 ins s) as [t o]. simpl in *.
        intros H. repeat (destruct H as [H|H]); try discriminate H; auto.
        injection H as <-. auto.
      * specialize (IH 1%Z s argv). revert H.
        unfold enableSysProxy; unfold bind, emit, ret. simpl.
        destruct (listeners env 1 ins s) as [t o]. simpl in *.
        intros H. repeat (destruct H as [H|H]); try discriminate H; auto;
          injection H as <-; auto.
Qed.

(** Without a toggle click at its head the loop runs no command. *)
Lemma listeners_no_toggle st ins s :
  hd_error ins <> Some ClickToggle ->
  count is_Exec (fst (listeners env st ins s)) = 0.
Proof.
  destruct ins as [|[| |] ins]; simpl; intros H; try reflexivity.
  congruence.
Qed.

End Tray.

(** X8.  While the server runs, every switching-off of the proxy comes
    with the one-byte icon and the label "Enable", every switching-on with
    the regular icon and the label "Disable"; the commands alternate,
    starting with a switching-off, so that the proxy has been switched
    off as often as on, or once more. *)
Theorem toggle_keeps_tray_in_lockstep
    (env : Env) (ins : list input) (s : Arg) :
  let t := fst (listeners env 1 ins s) in
  count is_disable t = count (is_icon false) t /\
  count is_disable t = count (is_label "Enable") t /\
  count is_enable t = count (is_icon true) t /\
  count is_enable t = count (is_label "Disable") t /\
  count is_enable t <= count is_disable t <= count is_enable t + 1.
Proof. exact (listeners_lockstep env ins 1%Z s). Qed.

Ltac in_cases H :=
  repeat first [ destruct H as [H|H] | apply in_app_or in H as [H|H] ].

Lemma quiet_no_Exec t argv :
  Forall (fun e => quiet e = true) t -> ~ In (Exec argv) t.
Proof.
  intros F H. rewrite Forall_forall in F. specialize (F _ H). discriminate F.
Qed.

(** A command run by the body is run by the tray loop. *)
Lemma body_commands env ins argv :
  In (Exec argv) (fst (executeRun_body env ins (flag_config env))) ->
  exists s, In (Exec argv) (fst (listeners env 1 ins s)).
Proof.
  rewrite body_eq. unfold body_layout.
  pose proof (proj1 (resolution_outcome env false (flag_config env))) as Qf.
  pose proof (proj1 (resolution_outcome env true (flag_config env))) as Qt.
  destruct (dump env).
  - destruct (getConfigFilePath env false (flag_config env))
      as [tr [files s|c|]]; cbn [fst] in *;
      [destruct (core_GetMergedConfig env files)| |]; cbn [fst];
      intros H; in_cases H; try discriminate H;
      try (destruct (quiet_no_Exec tr argv Qf H)); contradiction.
  - destruct (getConfigFilePath env true (flag_config env))
      as [tr [files s|c|]]; cbn [fst] in *.
    + destruct (core_LoadConfig env (getConfigFormat env) files) as [c|].
      * destruct (core_New env c) as [srv|].
        -- destruct (test env).
           ++ cbn [fst]. intros H. in_cases H; try discriminate H;
                try (destruct (quiet_no_Exec tr argv Qt H)); contradiction.
           ++ destruct (server_Start env srv); cbn [fst]; intros H.
              ** destruct H as [H|H]; [discriminate H|].
                 apply in_app_or in H as [H|H];
                   [destruct (quiet_no_Exec tr argv Qt H)|].
                 apply in_app_or in H as [H|H];
                   [in_cases H; try discriminate H; contradiction|].
                 apply in_app_or in H as [H|H];
                   [in_cases H; try discriminate H; contradiction|].
                 apply in_app_or in H as [H|H]; [eauto|].
                 destruct (snd (listeners env 1 ins s));
                   in_cases H; try discriminate H; contradiction.
              ** in_cases H; try discriminate H;
                   try (destruct (quiet_no_Exec tr argv Qt H));
                   contradiction.
        -- cbn [fst]. intros H. in_cases H; try discriminate H;
             try (destruct (quiet_no_Exec tr argv Qt H)); contradiction.
      * cbn [fst]. intros H. in_cases H; try discriminate H;
          try (destruct (quiet_no_Exec tr argv Qt H)); contradiction.
    + intros H. in_cases H; try discriminate H;
        try (destruct (quiet_no_Exec tr argv Qt H)); contradiction.
    + intros H. in_cases H; try discriminate H;
        try (destruct (quiet_no_Exec tr argv Qt H)); contradiction.
Qed.

(** X9.  Every command the process runs, in any mode and on any input,
    is one of three: set the SOCKS target of the flags' device to
    127.0.0.1 and the flags' port, switch that device's proxy on, or
    switch it off.  Device and port never change during a run. *)
Theorem commands_use_the_flags_device_and_port
    (env : Env) (ins : list input) (argv : list string) :
  In (Exec argv) (fst (executeRun env ins)) ->
  argv = set_target_cmd env \/ argv = set_state_cmd env "on"
  \/ argv = set_state_cmd env "off".
Proof.
  rewrite executeRun_eq. destruct (on_darwin env); cbn [fst]; intros H.
  - apply in_app_or in H as [H|H].
    + unfold enable_events in H. simpl in H.
      in_cases H; try discriminate H; try contradiction;
        injection H as <-; auto.
    + apply in_app_or in H as [H|H].
      * destruct (body_commands env ins argv H) as [s Hs].
        exact (listeners_commands env ins 1%Z s argv Hs).
      * destruct (snd (executeRun_body env ins (flag_config env)));
          unfold disable_events in H; simpl in H;
          in_cases H; try discriminate H; try contradiction.
        injection H as <-. auto.
  - destruct (body_commands env ins argv H) as [s Hs].
    exact (listeners_commands env ins 1%Z s argv Hs).
Qed.

Lemma commands_use_the_flags_device_and_port_witness :
  ["networksetup"; "-setsocksfirewallproxystate"; "Wi-Fi"; "on"]
  = set_target_cmd (plain "darwin" true false true true)
  \/ ["networksetup"; "-setsocksfirewallproxystate"; "Wi-Fi"; "on"]
     = set_state_cmd (plain "darwin" true false true true) "on"
  \/ ["networksetup"; "-setsocksfirewallproxystate"; "Wi-Fi"; "on"]
     = set_state_cmd (plain "darwin" true false true true) "off".
Proof.
  apply (commands_use_the_flags_device_and_port
           (plain "darwin" true false true true) []).
  simpl. auto.
Defined.

(** X10.  The toggle of the tray is not guarded by the platform: once the
    server runs, a toggle click runs the "switch off" command, on darwin
    and elsewhere alike. *)
Theorem toggle_is_not_guarded_by_platform
    (env : Env) (ins : list input) (srv : Server) :
  starts env srv ->
  In (Exec (set_state_cmd env "off"))
     (fst (executeRun env (ClickToggle :: ins))).
Proof.
  intros St.
  destruct (running_shape env (ClickToggle :: ins) srv St)
    as (t0 & s' & _ & Ht & _).
  rewrite Ht. apply in_or_app. right. apply in_or_app. left.
  simpl. unfold background, disableSysProxy; unfold bind, emit, ret. simpl.
  destruct (listeners env 0 ins s') as [t o]. simpl. auto.
Qed.

Lemma toggle_is_not_guarded_by_platform_witness :
  In (Exec (set_state_cmd (plain "linux" false false true true) "off"))
     (fst (executeRun (plain "linux" false false true true)
             [ClickToggle; Signal])).
Proof.
  apply (toggle_is_not_guarded_by_platform
           (plain "linux" false false true true) [Signal] 7).
  unfold starts. repeat split.
  exists ["/etc/xray/a.json"]. split; [|reflexivity].
  exists ["/etc/xray/a.json"]. reflexivity.
Defined.

Lemma count_zero_In p (t : list event) e :
  count p t = 0 -> In e t -> p e = false.
Proof.
  induction t as [|a t IH]; intros H Hin; [destruct Hin|].
  rewrite count_cons in H. destruct Hin as [<-|Hin].
  - destruct (p a); [discriminate H|reflexivity].
  - apply IH; [|exact Hin]. destruct (p a); [discriminate H|exact H].
Qed.

(** X11.  Off darwin the launcher itself runs no command at all: unless
    the first input is a toggle click, a run executes nothing. *)
Theorem no_command_off_darwin_without_toggle
    (env : Env) (ins : list input) (argv : list string) :
  on_darwin env = false ->
  hd_error ins <> Some ClickToggle ->
  ~ In (Exec argv) (fst (executeRun env ins)).
Proof.
  intros Hw Hh H. rewrite executeRun_eq, Hw in H.
  destruct (body_commands env ins argv H) as [s Hs].
  pose proof (count_zero_In is_Exec _ _
                (listeners_no_toggle env 1%Z ins s Hh) Hs) as F.
  discriminate F.
Qed.

Lemma no_command_off_darwin_without_toggle_witness :
  ~ In (Exec ["networksetup"; "-setsocksfirewallproxystate"; "Wi-Fi"; "off"])
       (fst (executeRun (plain "linux" false false true true)
               [Signal; ClickToggle])).
Proof.
  apply (no_command_off_darwin_without_toggle
           (plain "linux" false false true true) [Signal; ClickToggle]).
  - reflexivity.
  - discriminate.
Defined.

(** X12.  On a termination signal the teardown is, in this order: [end]
    is closed, the wait returns, the server is closed, and (on darwin
    only) the proxy is switched off; nothing else is performed. *)
Theorem signal_teardown_order
    (env : Env) (ins : list input) (srv : Server) :
  starts env srv ->
  first_stop ins = Some Signal ->
  after_stop (fst (executeRun env ins))
  = [CloseEnd; RecvEnd; Close srv]
      ++ (if on_darwin env then disable_events env else []).
Proof.
  intros St Hi.
  exact (proj2 (proj2 (proj2 (proj2 (proj2
           (signal_shutdown env ins srv St Hi)))))).
Qed.

Lemma signal_teardown_order_witness :
  after_stop (fst (executeRun (plain "darwin" false false true true)
                     [ClickToggle; Signal]))
  = [CloseEnd; RecvEnd; Close 7;
     Exec ["networksetup"; "-setsocksfirewallproxystate"; "Wi-Fi"; "off"];
     Log "Disabled system proxy for device"].
Proof.
  apply (signal_teardown_order (plain "darwin" false false true true)
           [ClickToggle; Signal] 7).
  - unfold starts. repeat split.
    exists ["/etc/xray/a.json"]. split; [|reflexivity].
    exists ["/etc/xray/a.json"]. reflexivity.
  - reflexivity.
Defined.

Lemma resolves_from_true env tr files s :
  getConfigFilePath env true (flag_config env) = (tr, Done files s) ->
  resolves env files.
Proof.
  intros E. exists s. rewrite <- (resolution_verbose env true), E.
  reflexivity.
Qed.

Lemma resolves_from_false env tr files s :
  getConfigFilePath env false (flag_config env) = (tr, Done files s) ->
  resolves env files.
Proof. intros E. exists s. rewrite E. reflexivity. Qed.

Lemma resolution_never_blocks env v s0 :
  snd (getConfigFilePath env v s0) <> Blocked.
Proof.
  destruct (proj2 (resolution_outcome env v s0)) as [(f & s & H)|H];
    rewrite H; discriminate.
Qed.

Lemma resolution_exit_code env v s0 c :
  snd (getConfigFilePath env v s0) = Exited c ->
  c = 1%Z /\ exists d, scan_target env = Some d /\ os_ReadDir env d = None.
Proof.
  intros H.
  destruct (proj2 (resolution_outcome env v s0)) as [(f & s & H')|H'];
    [congruence|].
  split; [congruence|]. apply (scan_failure_cases env v s0). exact H'.
Qed.

(** X13.  Every way a run can end has its cause.  It returns only after
    a termination signal on a started server, and waits for ever only on
    a started server that gets neither signal nor "Quit".  It exits with
    1 only for an unlistable config directory; with 23 only for a failed
    merge (dump mode) or a failed build; with -1 only for a failed
    [Start]; with 0 only for a successful dump, a successful test, or a
    click on "Quit".  No other exit code occurs. *)
Theorem every_outcome_has_a_cause (env : Env) (ins : list input) :
  match snd (executeRun env ins) with
  | Done _ _ => exists srv, starts env srv /\ first_stop ins = Some Signal
  | Blocked => exists srv, starts env srv /\ first_stop ins = None
  | Exited c =>
      (c = 1%Z /\
       exists d, scan_target env = Some d /\ os_ReadDir env d = None)
      \/ (c = 23%Z /\
          exists files, resolves env files /\
            if dump env then core_GetMergedConfig env files = None
            else build env files = None)
      \/ (c = (-1)%Z /\
          exists files srv,
            dump env = false /\ test env = false /\ resolves env files /\
            build env files = Some srv /\ server_Start env srv = false)
      \/ (c = 0%Z /\
          ((exists files config,
              dump env = true /\ resolves env files /\
              core_GetMergedConfig env files = Some config)
           \/ (exists files srv,
                 dump env = false /\ test env = true /\
                 resolves env files /\ build env files = Some srv)
           \/ (exists srv, starts env srv /\ first_stop ins = Some ClickQuit)))
  end.
Proof.
  rewrite snd_run, body_eq. unfold body_layout, build.
  destruct (dump env) eqn:Hd.
  - pose proof (resolution_never_blocks env false (flag_config env)) as NB.
    pose proof (resolution_exit_code env false (flag_config env)) as XC.
    destruct (getConfigFilePath env false (flag_config env))
      as [tr [files s|c|]] eqn:E; cbn [snd] in *.
    + pose proof (resolves_from_false env _ _ _ E) as R.
      destruct (core_GetMergedConfig env files) as [cfg|] eqn:M; cbn [snd].
      * right. right. right. split; [reflexivity|]. left. eauto.
      * right. left. split; [reflexivity|]. eauto.
    + left. apply XC. reflexivity.
    + congruence.
  - pose proof (resolution_never_blocks env true (flag_config env)) as NB.
    pose proof (resolution_exit_code env true (flag_config env)) as XC.
    destruct (getConfigFilePath env true (flag_config env))
      as [tr [files s|c|]] eqn:E; cbn [snd] in *.
    + pose proof (resolves_from_true env _ _ _ E) as R.
      destruct (core_LoadConfig env (getConfigFormat env) files)
        as [c|] eqn:HL; cbn [snd].
      * destruct (core_New env c) as [srv|] eqn:HN; cbn [snd].
        -- assert (B : build env files = Some srv)
             by (unfold build; rewrite HL; exact HN).
           destruct (test env) eqn:Ht; cbn [snd].
           ++ right. right. right. split; [reflexivity|]. right. left.
              exists files, srv. unfold build in B. auto.
           ++ destruct (server_Start env srv) eqn:Hs; cbn [snd].
              ** assert (St : starts env srv)
                   by (repeat split; auto; exists files; auto).
                 destruct (listeners_spec env ins 1%Z s) as [_ L].
                 destruct (first_stop ins) as [[| |]|].
                 --- destruct L as (L & _). rewrite L. eauto.
                 --- destruct L as (L & _). rewrite L.
                     right. right. right. split; [reflexivity|].
                     right. right. eauto.
                 --- contradiction.
                 --- destruct L as (L & _). rewrite L. eauto.
              ** right. right. left. split; [reflexivity|].
                 exists files, srv. unfold build in B. auto.
        -- right. left. split; [reflexivity|].
           exists files. split; [exact R|]. rewrite HL. exact HN.
      * right. left. split; [reflexivity|].
        exists files. split; [exact R|]. rewrite HL. reflexivity.
    + left. apply XC. reflexivity.
    + congruence.
Qed.

Lemma resolution_lists_once env v s0 :
  count is_ReadDir (fst (getConfigFilePath env v s0)) <= 1.
Proof.
  destruct v;
    unfold getConfigFilePath, bind, when, ret, emit, get_configFiles;
    (destruct (dirExists env (configDir env));
       [|destruct (dirExists env (platform_GetConfDirPath env))]);
    cbn beta iota; rewrite ?readConfDir_eq;
    repeat (break_match; cbn [fst snd app]);
    unfold count; simpl; lia.
Qed.

(** X14.  A run lists at most one directory, at most once: config
    resolution, which appends the scanned files to the global list of
    explicit files, takes place once per run. *)
Theorem directory_listed_at_most_once (env : Env) (ins : list input) :
  count is_ReadDir (fst (executeRun env ins)) <= 1.
Proof.
  rewrite count_run by reflexivity. rewrite body_eq. unfold body_layout.
  destruct (dump env).
  - pose proof (resolution_lists_once env false (flag_config env)) as Q.
    destruct (getConfigFilePath env false (flag_config env))
      as [tr [files s|c|]]; cbn [fst] in *;
      [destruct (core_GetMergedConfig env files)| |]; cbn [fst];
      counts; simpl; lia.
  - pose proof (resolution_lists_once env true (flag_config env)) as Q.
    destruct (getConfigFilePath env true (flag_config env))
      as [tr [files s|c|]]; cbn [fst] in *;
      [|counts; simpl; lia|counts; simpl; lia].
    destruct (core_LoadConfig env (getConfigFormat env) files) as [c|];
      [|cbn [fst]; counts; simpl; lia].
    destruct (core_New env c) as [srv|];
      [|cbn [fst]; counts; simpl; lia].
    destruct (test env); [cbn [fst]; counts; simpl; lia|].
    destruct (server_Start env srv); [|cbn [fst]; counts; simpl; lia].
    cbn [fst]. destruct (listeners_spec env ins 1%Z s) as [Lc _].
    counts.
    rewrite (count_class listener_event is_ReadDir _ ltac:(reject) Lc).
    destruct (snd (listeners env 1 ins s)); counts; simpl; lia.
Qed.

Lemma class_In (cls : event -> bool) t e :
  Forall (fun x => cls x = true) t -> In e t -> cls e = true.
Proof. intros F H. rewrite Forall_forall in F. exact (F e H). Qed.

Lemma getConfigFormat_nonempty env : getConfigFormat env <> "".
Proof.
  unfold getConfigFormat.
  destruct (String.eqb (core_GetFormatByExtension env (format env)) "")
    eqn:E; [discriminate|].
  apply String.eqb_neq. exact E.
Qed.

(** What the body hands to the engine, and what it starts and closes. *)
Lemma body_engine_calls env ins e :
  In e (fst (executeRun_body env ins (flag_config env))) ->
  match e with
  | GetMergedConfig files => dump env = true /\ resolves env files
  | LoadConfig fmt files =>
      dump env = false /\ resolves env files /\ fmt = getConfigFormat env
  | New c =>
      exists files,
        resolves env files /\
        core_LoadConfig env (getConfigFormat env) files = Some c
  | Start srv =>
      dump env = false /\ test env = false /\
      exists files, resolves env files /\ build env files = Some srv
  | Close srv => starts env srv /\ first_stop ins = Some Signal
  | _ => True
  end.
Proof.
  rewrite body_eq. unfold body_layout, build.
  destruct (dump env) eqn:Hd.
  - pose proof (proj1 (resolution_outcome env false (flag_config env))) as Q.
    destruct (getConfigFilePath env false (flag_config env))
      as [tr [files s|c|]] eqn:E; cbn [fst] in *.
    + pose proof (resolves_from_false env _ _ _ E) as R.
      destruct (core_GetMergedConfig env files); cbn [fst];
        intros H; in_cases H; subst;
        try (pose proof (class_In quiet _ _ Q H) as K;
             destruct e; try discriminate K);
        auto; contradiction.
    + intros H; in_cases H; subst;
        try (pose proof (class_In quiet _ _ Q H) as K;
             destruct e; try discriminate K);
        auto; contradiction.
    + intros H; in_cases H; subst;
        try (pose proof (class_In quiet _ _ Q H) as K;
             destruct e; try discriminate K);
        auto; contradiction.
  - pose proof (proj1 (resolution_outcome env true (flag_config env))) as Q.
    destruct (getConfigFilePath env true (flag_config env))
      as [tr [files s|c|]] eqn:E; cbn [fst] in *.
    + pose proof (resolves_from_true env _ _ _ E) as R.
      destruct (core_LoadConfig env (getConfigFormat env) files)
        as [c|] eqn:HL.
      * destruct (core_New env c) as [srv|] eqn:HN.
        -- assert (B : build env files = Some srv)
             by (unfold build; rewrite HL; exact HN).
           destruct (test env) eqn:Ht.
           ++ cbn [fst]. intros H; in_cases H; subst;
                try (pose proof (class_In quiet _ _ Q H) as K;
                     destruct e; try discriminate K);
                eauto; contradiction.
           ++ destruct (server_Start env srv) eqn:Hs; cbn [fst]; intros H.
              ** assert (St : starts env srv)
                   by (repeat split; auto; exists files; auto).
                 destruct (listeners_spec env ins 1%Z s) as [Lc L].
                 destruct H as [H|H]; [subst; exact I|].
                 apply in_app_or in H as [H|H];
                   [pose proof (class_In quiet _ _ Q H) as K;
                    destruct e; try discriminate K; exact I|].
                 apply in_app_or in H as [H|H].
                 { in_cases H; subst; eauto. contradiction. }
                 apply in_app_or in H as [H|H].
                 { in_cases H; subst; auto; contradiction. }
                 apply in_app_or in H as [H|H].
                 { pose proof (class_In listener_event _ _ Lc H) as K.
                   destruct e; try discriminate K; exact I. }
                 destruct (snd (listeners env 1 ins s)) eqn:So;
                   in_cases H; subst; auto; try contradiction.
                 split; [exact St|].
                 destruct (first_stop ins) as [[| |]|]; try reflexivity;
                   try contradiction; destruct L as (L & _); congruence.
              ** in_cases H; subst;
                   try (pose proof (class_In quiet _ _ Q H) as K;
                        destruct e; try discriminate K);
                   eauto; try contradiction.
        -- cbn [fst]. intros H; in_cases H; subst;
             try (pose proof (class_In quiet _ _ Q H) as K;
                  destruct e; try discriminate K);
             eauto; contradiction.
      * cbn [fst]. intros H; in_cases H; subst;
          try (pose proof (class_In quiet _ _ Q H) as K;
               destruct e; try discriminate K);
          eauto; contradiction.
    + intros H; in_cases H; subst;
        try (pose proof (class_In quiet _ _ Q H) as K;
             destruct e; try discriminate K);
        auto; contradiction.
    + intros H; in_cases H; subst;
        try (pose proof (class_In quiet _ _ Q H) as K;
             destruct e; try discriminate K);
        auto; contradiction.
Qed.

Lemma In_run_inv e env ins :
  In e (fst (executeRun env ins)) ->
  is_Exec e = false -> is_Log e = false ->
  In e (fst (executeRun_body env ins (flag_config env))).
Proof.
  rewrite executeRun_eq. destruct (on_darwin env); [|auto].
  cbn [fst]. intros H Hx Hl.
  apply in_app_or in H as [H|H].
  - unfold enable_events in H. simpl in H.
    in_cases H; subst; try discriminate; contradiction.
  - apply in_app_or in H as [H|H]; [exact H|].
    destruct (snd (executeRun_body env ins (flag_config env)));
      unfold disable_events in H; simpl in H;
      in_cases H; subst; try discriminate; contradiction.
Qed.

(** X15.  The engine is only ever handed what resolution returned: the
    merge (in dump mode only) and the build (outside dump mode only) get
    exactly the resolved files, and the build gets a non-empty format,
    the one derived from the format flag. *)
Theorem engine_gets_the_resolved_files (env : Env) (ins : list input) :
  (forall files,
      In (GetMergedConfig files) (fst (executeRun env ins)) ->
      dump env = true /\ resolves env files)
  /\ (forall fmt files,
         In (LoadConfig fmt files) (fst (executeRun env ins)) ->
         dump env = false /\ resolves env files /\
         fmt = getConfigFormat env /\ fmt <> "").
Proof.
  split.
  - intros files H.
    exact (body_engine_calls env ins _
             (In_run_inv _ env ins H eq_refl eq_refl)).
  - intros fmt files H.
    destruct (body_engine_calls env ins _
                (In_run_inv _ env ins H eq_refl eq_refl))
      as (Hd & R & ->).
    repeat split; auto. apply getConfigFormat_nonempty.
Qed.

Lemma engine_gets_the_resolved_files_witness :
  dump (with_format "xml") = false /\
  resolves (with_format "xml") ["/home/u/.xray/config.json"] /\
  "auto" = getConfigFormat (with_format "xml") /\ "auto" <> "".
Proof.
  destruct (engine_gets_the_resolved_files (with_format "xml") [Signal])
    as [_ T].
  apply (T "auto" ["/home/u/.xray/config.json"]).
  simpl. auto.
Defined.

(** X16.  [Start] is called at most once in a run and [Close] at most
    once; [Close] is called only on the server that was started, after a
    successful [Start], when a termination signal ended the wait. *)
Theorem start_and_close_at_most_once (env : Env) (ins : list input) :
  count is_Start (fst (executeRun env ins)) <= 1 /\
  count is_Close (fst (executeRun env ins))
  <= count is_Start (fst (executeRun env ins)) /\
  (forall srv,
      In (Close srv) (fst (executeRun env ins)) ->
      In (Start srv) (fst (executeRun env ins)) /\
      server_Start env srv = true /\ first_stop ins = Some Signal).
Proof.
  assert (K : count is_Start (fst (executeRun env ins)) <= 1 /\
              count is_Close (fst (executeRun env ins))
              <= count is_Start (fst (executeRun env ins))).
  { rewrite !count_run, body_eq by reflexivity. unfold body_layout.
    pose proof (resolution_quiet env is_Start false (flag_config env)
                  ltac:(reject)) as Qf.
    pose proof (resolution_quiet env is_Start true (flag_config env)
                  ltac:(reject)) as Qt.
    pose proof (resolution_quiet env is_Close false (flag_config env)
                  ltac:(reject)) as Cf.
    pose proof (resolution_quiet env is_Close true (flag_config env)
                  ltac:(reject)) as Ct.
    destruct (dump env).
    - destruct (getConfigFilePath env false (flag_config env))
        as [tr [files s|c0|]]; cbn [fst] in *;
        [destruct (core_GetMergedConfig env files)| |]; cbn [fst];
        counts; rewrite Qf, Cf; simpl; lia.
    - destruct (getConfigFilePath env true (flag_config env))
        as [tr [files s|c0|]]; cbn [fst] in *;
        [|counts; rewrite Qt, Ct; simpl; lia
         |counts; rewrite Qt, Ct; simpl; lia].
      destruct (core_LoadConfig env (getConfigFormat env) files) as [c1|];
        [|cbn [fst]; counts; rewrite Qt, Ct; simpl; lia].
      destruct (core_New env c1) as [srv|];
        [|cbn [fst]; counts; rewrite Qt, Ct; simpl; lia].
      destruct (test env);
        [cbn [fst]; counts; rewrite Qt, Ct; simpl; lia|].
      destruct (server_Start env srv);
        [|cbn [fst]; counts; rewrite Qt, Ct; simpl; lia].
      cbn [fst]. destruct (listeners_spec env ins 1%Z s) as [Lc _].
      counts.
      rewrite (count_class listener_event is_Start _ ltac:(reject) Lc).
      rewrite (count_class listener_event is_Close _ ltac:(reject) Lc).
      rewrite Qt, Ct.
      destruct (snd (listeners env 1 ins s)); counts; simpl; lia. }
  split; [apply K|split; [apply K|]].
  - intros srv H.
    destruct (body_engine_calls env ins _
                (In_run_inv _ env ins H eq_refl eq_refl)) as (St & Hi).
    split; [|split; [apply St | exact Hi]].
    destruct (running_shape env ins srv St) as (t0 & s' & _ & Ht & _).
    rewrite Ht. apply in_or_app. left. apply in_or_app. right.
    right. apply in_or_app. right. left. reflexivity.
Qed.

Lemma start_and_close_at_most_once_witness :
  In (Start 7)
     (fst (executeRun (plain "darwin" false false true true) [Signal])) /\
  server_Start (plain "darwin" false false true true) 7 = true /\
  first_stop [Signal] = Some Signal.
Proof.
  destruct (start_and_close_at_most_once
              (plain "darwin" false false true true) [Signal])
    as (_ & _ & T).
  apply (T 7). simpl. tauto.
Defined.

(** X17.  The format flag is read without regard to case; [yml] is
    another name for [yaml]; and any value that is none of json, toml,
    yaml, yml (such as [auto], or a misspelling) selects all five
    extensions rather than failing. *)
Theorem format_flag_is_lenient :
  (forall env env' name,
      strings_ToLower (format env) = strings_ToLower (format env') ->
      matched env name = matched env' name)
  /\ (forall env name,
         strings_ToLower (format env) = "yml" ->
         (matched env name = Some true
          <-> has_ext (spec_extensions SelYaml) name))
  /\ (forall env name,
         strings_ToLower (format env) <> "json" ->
         strings_ToLower (format env) <> "toml" ->
         strings_ToLower (format env) <> "yaml" ->
         strings_ToLower (format env) <> "yml" ->
         (matched env name = Some true
          <-> has_ext (spec_extensions SelAuto) name)).
Proof.
  split; [|split].
  - intros env env' name H. unfold matched, getRegepxByFormat.
    rewrite H. reflexivity.
  - intros env name H. apply arm_matched. apply ArmYaml; [auto|].
    unfold getRegepxByFormat. rewrite H. reflexivity.
  - intros env name H1 H2 H3 H4. apply arm_matched. apply ArmDefault.
    unfold getRegepxByFormat.
    apply String.eqb_neq in H1, H2, H3, H4.
    rewrite H1, H2, H3, H4. reflexivity.
Qed.

Lemma format_flag_is_lenient_witness :
  matched (with_format "JSON") "a.jsonc" = matched (with_format "json") "a.jsonc"
  /\ (matched (with_format "YML") "a.yaml" = Some true
      <-> has_ext ["yaml"; "yml"] "a.yaml")
  /\ (matched (with_format "jsno") "a.toml" = Some true
      <-> has_ext ["json"; "jsonc"; "toml"; "yaml"; "yml"] "a.toml").
Proof.
  destruct format_flag_is_lenient as (T1 & T2 & T3).
  split; [|split].
  - apply (T1 (with_format "JSON") (with_format "json")). reflexivity.
  - apply (T2 (with_format "YML")). reflexivity.
  - apply (T3 (with_format "jsno")); discriminate.
Defined.
